(** * querylanguage.resolver: the SQL-like WHERE clause resolver

    A shallow embedding of [Parser._resolve], [Parser._resolve_column] and
    [Parser._resolve_cone] of [querylanguage/resolver.py], with the sqlglot
    expression tree as the resolver observes it, the django objects it
    builds, and the exceptions both the package and its host can raise. *)

From Stdlib Require Import ZArith String Ascii List Floats DecimalString Lia.
From Stdlib Require Import DecimalNat.
From stdpp Require Import base option list strings gmap.

Local Open Scope string_scope.
Local Open Scope list_scope.

(** ** Exceptions *)

(** The four exceptions of [querylanguage/exceptions.py], followed by the
    exceptions of the host (django and the Python runtime) that the
    resolver's code can let escape. *)
Inductive exn : Type :=
| FieldDoesNotExist (field : string)
| InvalidQuery
| InvalidLiteral
| InvalidConeNumberArguments
| django_FieldDoesNotExist   (* django.core.exceptions.FieldDoesNotExist *)
| AttributeError
| TypeError
| ValueError
| IndexError.

(** The errors the package declares itself. *)
Definition typed (e : exn) : bool :=
  match e with
  | FieldDoesNotExist _ | InvalidQuery | InvalidLiteral
  | InvalidConeNumberArguments => true
  | _ => false
  end.

Inductive result (A : Type) : Type :=
| Ok (a : A)
| Err (e : exn).
Arguments Ok {A} a.
Arguments Err {A} e.

(** ** sqlglot expression nodes *)

Module exp.

(** [exp.Identifier]: [this] is the name, [quoted] the double-quote flag. *)
Record Identifier : Type := mkIdentifier { id_this : string; quoted : bool }.

(** [exp.Literal], with the three properties [_resolve] reads. *)
Record LiteralNode : Type := mkLiteral {
  lit_this : string;
  is_string : bool;
  is_int : bool;
  is_number : bool }.

(** [exp.Column]: [this] and its optional qualifiers. *)
Record ColumnNode : Type := mkColumn {
  col_this : Identifier;
  table : option Identifier;
  db : option Identifier;
  catalog : option Identifier }.

(** [Column.parts]: the identifiers present, in the order catalog, db,
    table, name; a new list at every access. *)
Definition parts (c : ColumnNode) : list Identifier :=
  option_list (catalog c) ++ option_list (db c) ++ option_list (table c)
    ++ [col_this c].

(** The node classes [_resolve] dispatches on; [Other] stands for every
    expression class it has no branch for.  sqlglot builds two more
    shapes of the classes it does dispatch on: [ColumnStar] is a
    [Column] whose [this] is a [Star] and no [Identifier], as in
    [t.*], and [AnonymousIdentifier] is an [Anonymous] whose [this] is
    an [Identifier] and no string, as for a function called by a
    double-quoted name. *)
#[local] Unset Elimination Schemes.
Inductive t : Type :=
| Literal (l : LiteralNode)
| Column (c : ColumnNode)
| Neg (this : t)
| Not (this : t)
| Paren (this : t)
| And (left right : t)
| Or (left right : t)
| EQ (left right : t)
| Is (left right : t)
| NEQ (left right : t)
| GT (left right : t)
| LT (left right : t)
| GTE (left right : t)
| LTE (left right : t)
| RegexpLike (this expression : t)
| Add (left right : t)
| Sub (left right : t)
| Mul (left right : t)
| Div (left right : t)
| Between (this low high : t)
| In (this : t) (expressions : list t)
| Anonymous (this : string) (expressions : list t)
| Null
| Other
| ColumnStar (table db catalog : option Identifier)
| AnonymousIdentifier (this : Identifier) (expressions : list t).
#[local] Set Elimination Schemes.

Definition is_Literal (p : t) : bool :=
  match p with Literal _ => true | _ => false end.

Definition is_Null (p : t) : bool :=
  match p with Null => true | _ => false end.

(** [Expression.is_string]: false on every node that is not a literal. *)
Definition expr_is_string (p : t) : bool :=
  match p with Literal l => is_string l | _ => false end.

End exp.

(** ** Python scalars and django objects *)

Inductive pyval : Type :=
| PyStr (s : string)
| PyInt (z : Z)
| PyFloat (f : float)
| PyBool (b : bool).

(** Unary minus on a Python scalar. *)
Definition py_neg (v : pyval) : result pyval :=
  match v with
  | PyInt z => Ok (PyInt (- z))
  | PyFloat f => Ok (PyFloat (- f)%float)
  | PyBool b => Ok (PyInt (- (if b then 1 else 0)))
  | PyStr _ => Err TypeError
  end.

Module models.

(** [Combinable.ADD], [SUB], [MUL], [DIV]. *)
Inductive connector : Type := ADD | SUB | MUL | DIV.

(** [Q.AND], [Q.OR]. *)
Inductive qconn : Type := AND | OR.

(** The binary lookup classes imported from [django.db.models.lookups]. *)
Inductive lookup : Type :=
| Exact | IContains | GreaterThan | LessThan
| GreaterThanOrEqual | LessThanOrEqual.

(** The objects [_resolve] returns.  [Q conn negated children] is a [Q]
    node built from positional children; [Q_kwargs key v] is
    [Q] called with the one keyword argument [key=v], the node whose
    only child is the pair [(key, v)]. *)
#[local] Unset Elimination Schemes.
Inductive obj : Type :=
| Value (value : pyval)
| F (name : string)
| CombinedExpression (lhs : obj) (conn : connector) (rhs : obj)
| NegatedExpression (expression : obj)
| Lookup (cls : lookup) (lhs rhs : obj)
| IsNull (lhs : obj) (rhs : bool)
| In (lhs : obj) (rhs : list obj)
| Q (conn : qconn) (negated : bool) (children : list obj)
| Q_kwargs (key : string) (v : pyval).
#[local] Set Elimination Schemes.

Definition is_Value (o : obj) : bool :=
  match o with Value _ => true | _ => false end.

Definition is_Q (o : obj) : bool :=
  match o with Q _ _ _ | Q_kwargs _ _ => true | _ => false end.

(** [o.value]: only [Value] has the attribute. *)
Definition value (o : obj) : result pyval :=
  match o with Value v => Ok v | _ => Err AttributeError end.

(** [-o]: [Combinable.__neg__] multiplies by [Value(-1)]; [Q] is a
    [tree.Node], not a [Combinable], and has no unary minus. *)
Definition neg (o : obj) : result obj :=
  if is_Q o then Err TypeError
  else Ok (CombinedExpression o MUL (Value (PyInt (-1)))).

(** [l + r], [l - r], [l * r], [l / r]: [Combinable._combine], reached
    through the reflected method of [r] when [l] is a [Q]. *)
Definition combine (l : obj) (c : connector) (r : obj) : result obj :=
  if is_Q l && is_Q r then Err TypeError
  else Ok (CombinedExpression l c r).

(** [Q(o)]: one positional child, connector AND, not negated. *)
Definition Q1 (o : obj) : obj := Q AND false [o].

(** [~q] copies the node and flips [negated]; on an expression it is
    [Combinable.__invert__], which wraps it in a [NegatedExpression]
    (django 4.2 and later). *)
Definition invert (o : obj) : obj :=
  match o with
  | Q c n ch => Q c (negb n) ch
  | Q_kwargs k v => Q AND true [Q_kwargs k v]
  | _ => NegatedExpression o
  end.

(** [Q(a) & Q(b)], [Q(a) | Q(b)]: [Q._combine] creates an empty node with
    the connector and adds both operands; a single-child, non-negated
    operand is squashed into the new node by [Node.add]. *)
Definition Q_combine (c : qconn) (a b : obj) : obj := Q c false [a; b].

End models.

Import models.

(** ** The accumulator and the parser instance *)

(** One entry of [extra_params['cones']]: the dict with the keys
    [cone_ra], [cone_dec], [cone_radius]. *)
Record cone_params : Type := mkCone {
  cone_ra : pyval;
  cone_dec : pyval;
  cone_radius : pyval }.

Record ExtraParams : Type := mkExtra {
  cones : list cone_params;
  aliases : gmap string string }.

(** [str(n)] for a list length. *)
Definition str (n : nat) : string := NilZero.string_of_uint (Nat.to_uint n).

Definition lower_ascii (a : ascii) : ascii :=
  let n := nat_of_ascii a in
  if (65 <=? n)%nat && (n <=? 90)%nat then ascii_of_nat (n + 32) else a.

(** [s.lower()], on the ASCII letters. *)
Fixpoint lower (s : string) : string :=
  match s with
  | EmptyString => EmptyString
  | String a s' => String (lower_ascii a) (lower s')
  end.

Section Resolver.

(** The schema catalog: django model classes, with
    [model._meta.get_field(name)] ([None] when django raises its
    FieldDoesNotExist) and the field's [related_model] ([None] for a
    field that is no relation). *)
Context {Model : Type}.

Record Field : Type := mkField { related_model : option Model }.

Variable get_field : Model -> string -> option Field.

(** The built-in conversions [int(text)] and [float(text)]; [None] when
    they raise ValueError. *)
Variable py_int : string -> option Z.
Variable py_float : string -> option float.

(** The attributes of [Parser] the resolver reads or writes. *)
Record Parser : Type := mkParser {
  model : Model;
  extra_params : ExtraParams }.

(** [Parser.__init__]. *)
Definition Parser_init (m : Model) : Parser :=
  {| model := m; extra_params := {| cones := []; aliases := ∅ |} |}.

(** Computations on [self]: an exception leaves the mutations made so
    far in place. *)
Definition M (A : Type) : Type := Parser -> result A * Parser.

Definition ret {A} (a : A) : M A := fun self => (Ok a, self).

Definition raise {A} (e : exn) : M A := fun self => (Err e, self).

Definition bind {A B} (m : M A) (k : A -> M B) : M B :=
  fun self =>
    match m self with
    | (Ok a, self') => k a self'
    | (Err e, self') => (Err e, self')
    end.

Definition lift {A} (r : result A) : M A := fun self => (r, self).

Definition of_option {A} (e : exn) (o : option A) : M A :=
  match o with Some a => ret a | None => raise e end.

Notation "x <- m ;; k" := (bind m (fun x => k))
  (at level 100, m at next level, right associativity).

(** [[f(r) for r in l]]. *)
Fixpoint for_each {A B} (f : A -> M B) (l : list A) : M (list B) :=
  match l with
  | [] => ret []
  | r :: l' => x <- f r ;; xs <- for_each f l' ;; ret (x :: xs)
  end.

(** *** [_resolve_column] *)

(** The [while len(parts) > 1] loop: pops the first identifier and moves
    to the related model of the field it names.  The loop is outside
    the [try]: django's FieldDoesNotExist escapes as it is, and a field
    without a related model leaves [None] in [model], on which the next
    [model._meta] raises AttributeError.  Returns the model reached and
    the remaining [parts]. *)
Fixpoint descend (mdl : option Model) (parts : list exp.Identifier)
  : result (option Model * list exp.Identifier) :=
  match parts with
  | current_identifier :: ((_ :: _) as rest) =>
      match mdl with
      | None => Err AttributeError
      | Some m =>
          match get_field m (exp.id_this current_identifier) with
          | None => Err django_FieldDoesNotExist
          | Some fld => descend (related_model fld) rest
          end
      end
  | _ => Ok (mdl, parts)
  end.

Definition _resolve_column (p : exp.ColumnNode) : M obj :=
  fun self =>
    match descend (Some (model self)) (exp.parts p) with
    | Err e => (Err e, self)
    | Ok (None, _) => (Err AttributeError, self)
    | Ok (Some m, []) => (Err IndexError, self)
    | Ok (Some m, part0 :: _) =>
        match get_field m (exp.id_this part0) with
        | Some _ =>
            let full_field_name :=
              String.concat "__" (map exp.id_this (exp.parts p)) in
            (Ok (F full_field_name), self)
        | None => (Err (FieldDoesNotExist (exp.id_this part0)), self)
        end
    end.

(** *** [_resolve_cone], over the recursive call *)

Definition append_cone (c : cone_params) : M unit :=
  fun self =>
    (Ok tt,
     {| model := model self;
        extra_params :=
          {| cones := cones (extra_params self) ++ [c];
             aliases := aliases (extra_params self) |} |}).

Definition cone_count : M nat :=
  fun self => (Ok (length (cones (extra_params self))), self).

Definition resolve_cone_with (resolve : exp.t -> M obj)
    (expressions : list exp.t) : M obj :=
  match expressions with
  | [e0; e1; e2] =>
      r0 <- resolve e0 ;; ra <- lift (value r0) ;;
      r1 <- resolve e1 ;; dec <- lift (value r1) ;;
      r2 <- resolve e2 ;; radius <- lift (value r2) ;;
      let cone_params :=
        {| cone_ra := ra; cone_dec := dec; cone_radius := radius |} in
      cone_index <- cone_count ;;
      let cone_index_str :=
        if Nat.eqb cone_index 0 then "" else str cone_index in
      _ <- append_cone cone_params ;;
      ret (Q_kwargs ("cone_query" +:+ cone_index_str) (PyBool true))
  | _ => raise InvalidConeNumberArguments
  end.

(** *** [_resolve] *)

(** [name.lower() == 'cone']. *)
Definition is_cone (name : string) : bool := String.eqb (lower name) "cone".

Fixpoint _resolve (p : exp.t) : M obj :=
  match p with
  | exp.Literal l =>
      if exp.is_string l then ret (Value (PyStr (exp.lit_this l)))
      else if exp.is_int l then
        z <- of_option ValueError (py_int (exp.lit_this l)) ;;
        ret (Value (PyInt z))
      else if exp.is_number l then
        f <- of_option ValueError (py_float (exp.lit_this l)) ;;
        ret (Value (PyFloat f))
      else raise InvalidLiteral
  | exp.Column c =>
      if exp.quoted (exp.col_this c) then
        ret (Value (PyStr (exp.id_this (exp.col_this c))))
      else _resolve_column c
  | exp.Neg this =>
      if exp.is_Literal this && negb (exp.expr_is_string this) then
        r <- _resolve this ;; v <- lift (value r) ;;
        nv <- lift (py_neg v) ;; ret (Value nv)
      else
        r <- _resolve this ;; lift (neg r)
  | exp.Not this =>
      r <- _resolve this ;; ret (invert (Q1 r))
  | exp.Paren this => _resolve this
  | exp.And left_ right_ =>
      l <- _resolve left_ ;; r <- _resolve right_ ;; ret (Q_combine AND l r)
  | exp.Or left_ right_ =>
      l <- _resolve left_ ;; r <- _resolve right_ ;; ret (Q_combine OR l r)
  | exp.EQ left_ right_ =>
      if exp.is_Null right_ then
        l <- _resolve left_ ;; ret (IsNull l true)
      else
        l <- _resolve left_ ;; r <- _resolve right_ ;; ret (Lookup Exact l r)
  | exp.Is left_ right_ =>
      if exp.is_Null right_ then
        l <- _resolve left_ ;; ret (IsNull l true)
      else
        l <- _resolve left_ ;; r <- _resolve right_ ;; ret (Lookup Exact l r)
  | exp.NEQ left_ right_ =>
      if exp.is_Null right_ then
        l <- _resolve left_ ;; ret (IsNull l false)
      else
        l <- _resolve left_ ;; r <- _resolve right_ ;;
        ret (invert (Lookup Exact l r))
  | exp.GT left_ right_ =>
      l <- _resolve left_ ;; r <- _resolve right_ ;;
      ret (Lookup GreaterThan l r)
  | exp.LT left_ right_ =>
      l <- _resolve left_ ;; r <- _resolve right_ ;;
      ret (Lookup LessThan l r)
  | exp.GTE left_ right_ =>
      l <- _resolve left_ ;; r <- _resolve right_ ;;
      ret (Lookup GreaterThanOrEqual l r)
  | exp.LTE left_ right_ =>
      l <- _resolve left_ ;; r <- _resolve right_ ;;
      ret (Lookup LessThanOrEqual l r)
  | exp.RegexpLike this expression =>
      l <- _resolve this ;; r <- _resolve expression ;;
      ret (Lookup IContains l r)
  | exp.Add left_ right_ =>
      l <- _resolve left_ ;; r <- _resolve right_ ;; lift (combine l ADD r)
  | exp.Sub left_ right_ =>
      l <- _resolve left_ ;; r <- _resolve right_ ;; lift (combine l SUB r)
  | exp.Mul left_ right_ =>
      l <- _resolve left_ ;; r <- _resolve right_ ;; lift (combine l MUL r)
  | exp.Div left_ right_ =>
      l <- _resolve left_ ;; r <- _resolve right_ ;; lift (combine l DIV r)
  | exp.Between this low high =>
      s1 <- _resolve this ;; lo <- _resolve low ;;
      s2 <- _resolve this ;; hi <- _resolve high ;;
      ret (Q_combine AND (Lookup GreaterThanOrEqual s1 lo)
                         (Lookup LessThanOrEqual s2 hi))
  | exp.In this expressions =>
      l <- _resolve this ;; rs <- for_each _resolve expressions ;;
      ret (In l rs)
  | exp.Anonymous this expressions =>
      if is_cone this then
        resolve_cone_with _resolve expressions
      else raise InvalidQuery
  | exp.Null => raise InvalidQuery
  | exp.Other => raise InvalidQuery
  | exp.ColumnStar _ _ _ =>
      (* p.this.quoted, on a Star *)
      raise AttributeError
  | exp.AnonymousIdentifier _ _ =>
      (* p.this.lower(), on an Identifier *)
      raise AttributeError
  end.

Definition _resolve_cone (expressions : list exp.t) : M obj :=
  resolve_cone_with _resolve expressions.

(** *** Static views of a tree, used to state the properties *)

(** The nodes that return a [Value] when they return: a literal, a
    quoted identifier, a negated number literal, and these in
    parentheses. *)
Fixpoint returns_Value (p : exp.t) : bool :=
  match p with
  | exp.Literal _ => true
  | exp.Column c => exp.quoted (exp.col_this c)
  | exp.Neg this => exp.is_Literal this && negb (exp.expr_is_string this)
  | exp.Paren this => returns_Value this
  | _ => false
  end.

(** The nodes that return a [Q] when they return. *)
Fixpoint returns_Q (p : exp.t) : bool :=
  match p with
  | exp.Not _ | exp.And _ _ | exp.Or _ _ | exp.Between _ _ _
  | exp.Anonymous _ _ => true
  | exp.Paren this => returns_Q this
  | _ => false
  end.

(** Every identifier of a path but the last names a relation. *)
Fixpoint relational_prefix (m : Model) (parts : list exp.Identifier) : bool :=
  match parts with
  | current_identifier :: ((_ :: _) as rest) =>
      match get_field m (exp.id_this current_identifier) with
      | Some fld =>
          match related_model fld with
          | Some m' => relational_prefix m' rest
          | None => false
          end
      | None => false
      end
  | _ => true
  end.

(** The text of a number literal is accepted by the conversion
    [_resolve] applies to it. *)
Definition literal_parses (l : exp.LiteralNode) : bool :=
  if exp.is_string l then true
  else if exp.is_int l then bool_decide (is_Some (py_int (exp.lit_this l)))
  else if exp.is_number l then
    bool_decide (is_Some (py_float (exp.lit_this l)))
  else true.

(** The trees on which no operation of the host can fault: columns are
    named by an identifier and functions by an unquoted name, number
    literals parse, paths cross relations only, unary minus is not
    applied to a [Q], an arithmetic operator does not join two [Q],
    and the three arguments of a cone call return a [Value]. *)
Fixpoint fault_free (m : Model) (p : exp.t) : bool :=
  match p with
  | exp.Literal l => literal_parses l
  | exp.Column c =>
      exp.quoted (exp.col_this c) || relational_prefix m (exp.parts c)
  | exp.Neg this =>
      fault_free m this
      && (exp.is_Literal this && negb (exp.expr_is_string this)
          || negb (returns_Q this))
  | exp.Not this | exp.Paren this => fault_free m this
  | exp.EQ left_ right_ | exp.Is left_ right_ | exp.NEQ left_ right_ =>
      fault_free m left_ && (exp.is_Null right_ || fault_free m right_)
  | exp.And left_ right_ | exp.Or left_ right_
  | exp.GT left_ right_ | exp.LT left_ right_
  | exp.GTE left_ right_ | exp.LTE left_ right_
  | exp.RegexpLike left_ right_ =>
      fault_free m left_ && fault_free m right_
  | exp.Add left_ right_ | exp.Sub left_ right_
  | exp.Mul left_ right_ | exp.Div left_ right_ =>
      fault_free m left_ && fault_free m right_
      && negb (returns_Q left_ && returns_Q right_)
  | exp.Between this low high =>
      fault_free m this && fault_free m low && fault_free m high
  | exp.In this expressions =>
      fault_free m this && forallb (fault_free m) expressions
  | exp.Anonymous this expressions =>
      if is_cone this then
        match expressions with
        | [_; _; _] =>
            forallb (fun e => fault_free m e && returns_Value e) expressions
        | _ => true
        end
      else true
  | exp.Null | exp.Other => true
  | exp.ColumnStar _ _ _ | exp.AnonymousIdentifier _ _ => false
  end.


(** A cone call with a number of arguments other than 3 somewhere in
    the tree. *)
Fixpoint bad_arity_cone (p : exp.t) : bool :=
  match p with
  | exp.Literal _ | exp.Column _ | exp.Null | exp.Other
  | exp.ColumnStar _ _ _ | exp.AnonymousIdentifier _ _ => false
  | exp.Neg this | exp.Not this | exp.Paren this => bad_arity_cone this
  | exp.And left_ right_ | exp.Or left_ right_
  | exp.EQ left_ right_ | exp.Is left_ right_ | exp.NEQ left_ right_
  | exp.GT left_ right_ | exp.LT left_ right_
  | exp.GTE left_ right_ | exp.LTE left_ right_
  | exp.RegexpLike left_ right_
  | exp.Add left_ right_ | exp.Sub left_ right_
  | exp.Mul left_ right_ | exp.Div left_ right_ =>
      bad_arity_cone left_ || bad_arity_cone right_
  | exp.Between this low high =>
      bad_arity_cone this || bad_arity_cone low || bad_arity_cone high
  | exp.In this expressions =>
      bad_arity_cone this || existsb bad_arity_cone expressions
  | exp.Anonymous this expressions =>
      is_cone this
      && (negb (Nat.eqb (length expressions) 3)
          || existsb bad_arity_cone expressions)
  end.

(** The cone calls of a tree, as their argument lists, in left-to-right
    depth-first order. *)
Fixpoint cone_calls (p : exp.t) : list (list exp.t) :=
  match p with
  | exp.Literal _ | exp.Column _ | exp.Null | exp.Other
  | exp.ColumnStar _ _ _ | exp.AnonymousIdentifier _ _ => []
  | exp.Neg this | exp.Not this | exp.Paren this => cone_calls this
  | exp.And left_ right_ | exp.Or left_ right_
  | exp.EQ left_ right_ | exp.Is left_ right_ | exp.NEQ left_ right_
  | exp.GT left_ right_ | exp.LT left_ right_
  | exp.GTE left_ right_ | exp.LTE left_ right_
  | exp.RegexpLike left_ right_
  | exp.Add left_ right_ | exp.Sub left_ right_
  | exp.Mul left_ right_ | exp.Div left_ right_ =>
      cone_calls left_ ++ cone_calls right_
  | exp.Between this low high =>
      cone_calls this ++ cone_calls low ++ cone_calls high
  | exp.In this expressions =>
      cone_calls this ++ flat_map cone_calls expressions
  | exp.Anonymous this expressions =>
      (if is_cone this then [expressions] else [])
      ++ flat_map cone_calls expressions
  end.

(** *** What a computation may change on [self] *)

(** [self'] differs from [self] at most by cone records appended at the
    end of the cones list. *)
Definition frame (self self' : Parser) : Prop :=
  model self' = model self
  /\ aliases (extra_params self') = aliases (extra_params self)
  /\ exists added,
      cones (extra_params self') = cones (extra_params self) ++ added.

Definition keeps {A} (m : M A) : Prop := forall self, frame self (snd (m self)).

(** The outcome is a result or an error of the package. *)
Definition ok_or_typed {A} (r : result A) : Prop :=
  match r with Ok _ => True | Err e => typed e = true end.

(** *** Cone records against cone calls *)

(** A [Between] node whose subject contains a cone call. *)
Fixpoint cone_in_between_subject (p : exp.t) : bool :=
  match p with
  | exp.Literal _ | exp.Column _ | exp.Null | exp.Other
  | exp.ColumnStar _ _ _ | exp.AnonymousIdentifier _ _ => false
  | exp.Neg this | exp.Not this | exp.Paren this =>
      cone_in_between_subject this
  | exp.And left_ right_ | exp.Or left_ right_
  | exp.EQ left_ right_ | exp.Is left_ right_ | exp.NEQ left_ right_
  | exp.GT left_ right_ | exp.LT left_ right_
  | exp.GTE left_ right_ | exp.LTE left_ right_
  | exp.RegexpLike left_ right_
  | exp.Add left_ right_ | exp.Sub left_ right_
  | exp.Mul left_ right_ | exp.Div left_ right_ =>
      cone_in_between_subject left_ || cone_in_between_subject right_
  | exp.Between this low high =>
      match cone_calls this with [] => false | _ :: _ => true end
      || cone_in_between_subject this
      || cone_in_between_subject low || cone_in_between_subject high
  | exp.In this expressions =>
      cone_in_between_subject this
      || existsb cone_in_between_subject expressions
  | exp.Anonymous _ expressions =>
      existsb cone_in_between_subject expressions
  end.

(** The record [c] holds the values of the three arguments of the cone
    call [expressions], in the order ra, dec, radius. *)
Definition records (c : cone_params) (expressions : list exp.t) : Prop :=
  exists e0 e1 e2,
    expressions = [e0; e1; e2]
    /\ forall self,
        _resolve e0 self = (Ok (Value (cone_ra c)), self)
        /\ _resolve e1 self = (Ok (Value (cone_dec c)), self)
        /\ _resolve e2 self = (Ok (Value (cone_radius c)), self).

(** A computation that, when it returns, has appended to the cones list
    one record per call of [calls], in that order. *)
Definition appends {A} (m : M A) (calls : list (list exp.t)) : Prop :=
  forall self a self',
    m self = (Ok a, self') ->
    exists added,
      cones (extra_params self') = cones (extra_params self) ++ added
      /\ Forall2 records added calls.

End Resolver.

Arguments mkField {Model} related_model.
Arguments mkParser {Model} model extra_params.

(** ** A schema and trees to run the resolver on *)

Module example.

(** Two models: [MainModel] with the plain fields name, age and flag and
    the relation related to [RelatedModel], which has the plain field
    title. *)
Inductive ExModel : Type := MainModel | RelatedModel.

Definition get_field (m : ExModel) (name : string) : option (@Field ExModel) :=
  match m with
  | MainModel =>
      if String.eqb name "name" || String.eqb name "age"
         || String.eqb name "flag"
      then Some (mkField None)
      else if String.eqb name "related" then Some (mkField (Some RelatedModel))
      else None
  | RelatedModel =>
      if String.eqb name "title" then Some (mkField None) else None
  end.

(** [int] on the decimal digit strings. *)
Definition py_int (text : string) : option Z :=
  match NilZero.uint_of_string text with
  | Some d => Some (Z.of_uint d)
  | None => None
  end.

(** [float] on the decimal texts the trees below use. *)
Definition py_float (text : string) : option float :=
  if String.eqb text "10.5" then Some 10.5%float
  else if String.eqb text "5.25" then Some 5.25%float
  else if String.eqb text "0.125" then Some 0.125%float
  else None.

Definition resolve (p : exp.t) : M obj := _resolve get_field py_int py_float p.

Definition fresh : Parser := Parser_init MainModel.

Definition ident (name : string) : exp.Identifier :=
  exp.mkIdentifier name false.

(** The unquoted column [name], and the dotted column [tbl.name]. *)
Definition col (name : string) : exp.t :=
  exp.Column (exp.mkColumn (ident name) None None None).

Definition col2 (tbl name : string) : exp.ColumnNode :=
  exp.mkColumn (ident name) (Some (ident tbl)) None None.

Definition quoted_col (name : string) : exp.t :=
  exp.Column (exp.mkColumn (exp.mkIdentifier name true) None None None).

Definition int_lit (text : string) : exp.t :=
  exp.Literal (exp.mkLiteral text false true true).

Definition dec_lit (text : string) : exp.t :=
  exp.Literal (exp.mkLiteral text false false true).

Definition str_lit (text : string) : exp.t :=
  exp.Literal (exp.mkLiteral text true false false).

Definition cone (args : list exp.t) : exp.t := exp.Anonymous "cone" args.

Definition cone_123 : exp.t := cone [int_lit "1"; int_lit "2"; int_lit "3"].

Definition record_123 : cone_params := mkCone (PyInt 1) (PyInt 2) (PyInt 3).

(** A parser instance after one cone call. *)
Definition after_one_cone : Parser :=
  mkParser MainModel (mkExtra [record_123] ∅).

(** The tree of [cone(10.5, -5.25, 0.125) AND flag = 1]. *)
Definition cone_and_flag : exp.t :=
  exp.And (cone [dec_lit "10.5"; exp.Neg (dec_lit "5.25"); dec_lit "0.125"])
          (exp.EQ (col "flag") (int_lit "1")).

(** The tree of [cone(1, 2, 3) BETWEEN 0 AND 1]. *)
Definition cone_between : exp.t :=
  exp.Between cone_123 (int_lit "0") (int_lit "1").

(** The tree of [cone(1, 2, 3) BETWEEN 0 AND 1 AND cone(4, 5, 6)]. *)
Definition cone_between_and_cone : exp.t :=
  exp.And cone_between (cone [int_lit "4"; int_lit "5"; int_lit "6"]).

(** The tree of ["cone"(1, 2, 3)], the function name in double quotes,
    and the tree of [related.*]. *)
Definition quoted_cone : exp.t :=
  exp.AnonymousIdentifier (exp.mkIdentifier "cone" true)
    [int_lit "1"; int_lit "2"; int_lit "3"].

Definition related_star : exp.t := exp.ColumnStar (Some (ident "related")) None None.

End example.

(** ** The rest of the package: exception messages and [Parser.parse] *)

(** The text each exception of [querylanguage/exceptions.py] passes to
    [Exception.__init__]; the exceptions of the host carry texts of
    their own, which are not modelled. *)
Definition message (e : exn) : option string :=
  match e with
  | FieldDoesNotExist field => Some ("Field '" +:+ field +:+ "' does not exist")
  | InvalidQuery => Some "Invalid query"
  | InvalidLiteral => Some "Invalid Literal"
  | InvalidConeNumberArguments =>
      Some "Cone statement should contains only 3 arguments: cone(ra, dec, radius)"
  | _ => None
  end.

(** Some node that [_resolve] can reach satisfies [f]: the traversal
    leaves out a [Null] that is the right operand of an [EQ], [Is] or
    [NEQ] node, which [_resolve] never resolves. *)
Fixpoint any_node (f : exp.t -> bool) (p : exp.t) : bool :=
  f p ||
  match p with
  | exp.Literal _ | exp.Column _ | exp.Null | exp.Other
  | exp.ColumnStar _ _ _ | exp.AnonymousIdentifier _ _ => false
  | exp.Neg this | exp.Not this | exp.Paren this => any_node f this
  | exp.EQ left_ right_ | exp.Is left_ right_ | exp.NEQ left_ right_ =>
      any_node f left_ || (negb (exp.is_Null right_) && any_node f right_)
  | exp.And left_ right_ | exp.Or left_ right_
  | exp.GT left_ right_ | exp.LT left_ right_
  | exp.GTE left_ right_ | exp.LTE left_ right_
  | exp.RegexpLike left_ right_
  | exp.Add left_ right_ | exp.Sub left_ right_
  | exp.Mul left_ right_ | exp.Div left_ right_ =>
      any_node f left_ || any_node f right_
  | exp.Between this low high =>
      any_node f this || any_node f low || any_node f high
  | exp.In this expressions =>
      any_node f this || existsb (any_node f) expressions
  | exp.Anonymous _ expressions => existsb (any_node f) expressions
  end.

(** The nodes [_resolve] has no branch for: [Null], a function other
    than cone, and every other expression class. *)
Definition unsupported_node (p : exp.t) : bool :=
  match p with
  | exp.Null | exp.Other => true
  | exp.Anonymous name _ => negb (is_cone name)
  | _ => false
  end.

(** A literal that is neither string, integer nor number. *)
Definition kindless_literal (p : exp.t) : bool :=
  match p with
  | exp.Literal l =>
      negb (exp.is_string l) && negb (exp.is_int l) && negb (exp.is_number l)
  | _ => false
  end.

(** An unquoted column whose own name, the last identifier, is [field]. *)
Definition column_named (field : string) (p : exp.t) : bool :=
  match p with
  | exp.Column c =>
      negb (exp.quoted (exp.col_this c))
      && String.eqb (exp.id_this (exp.col_this c)) field
  | _ => false
  end.

(** The synthetic field name of the cone call made when the cones list
    has [n] records. *)
Definition cone_query (n : nat) : string :=
  "cone_query" +:+ (if Nat.eqb n 0 then "" else str n).

Section Instance.

Context {Model : Type}.
Variable get_field : Model -> string -> option (@Field Model).
Variable py_int : string -> option Z.
Variable py_float : string -> option float.

(** [sqlglot.parse_one(query, read=database)]; [None] when sqlglot
    raises on the text. *)
Variable parse_one : string -> string -> option exp.t.

(** A computation that leaves [self] as it is and whose outcome depends
    on [self] through the model only. *)
Definition inert {A} (m : M A) : Prop :=
  forall self : @Parser Model,
    snd (m self) = self
    /\ forall other, model other = model self -> fst (m other) = fst (m self).

(** All attributes of a [Parser] object: the ones [__init__] sets next
    to the model and the accumulator, which [core] holds. *)
Record ParserObject : Type := mkObject {
  query : option string;
  date_format : string;
  database : string;
  core : @Parser Model }.

(** [Parser.__init__(model, database, date_format)]; the defaults of the
    two keyword arguments follow. *)
Definition Parser__init__ (m : Model) (database date_format : string)
  : ParserObject :=
  {| query := None; date_format := date_format; database := database;
     core := Parser_init m |}.

Definition default_database : string := "postgres".

Definition default_date_format : string := "%Y-%m-%d".

(** What a call of [parse] does: sqlglot raises, or [_resolve] runs on
    the parsed tree and returns or raises. *)
Inductive parse_outcome : Type :=
| sqlglot_raises
| resolved (r : result obj).

(** [Parser.parse]. *)
Definition parse (text : string) (self : ParserObject)
  : parse_outcome * ParserObject :=
  let self1 :=
    {| query := Some text; date_format := date_format self;
       database := database self; core := core self |} in
  match parse_one text (database self1) with
  | None => (sqlglot_raises, self1)
  | Some parsed =>
      let (r, c) := _resolve get_field py_int py_float parsed (core self1) in
      (resolved r,
       {| query := query self1; date_format := date_format self1;
          database := database self1; core := c |})
  end.

End Instance.

Arguments mkObject {Model} query date_format database core.

Module session.

Import example.

(** A stand-in for sqlglot on three texts; it raises on any other. *)
Definition parse_one (text dialect : string) : option exp.t :=
  if String.eqb text "cone(1, 2, 3)" then Some cone_123
  else if String.eqb text "cone(10.5, -5.25, 0.125) AND flag = 1"
  then Some cone_and_flag
  else if String.eqb text "missingfield = 1"
  then Some (exp.EQ (col "missingfield") (int_lit "1"))
  else None.

Definition parse (text : string) (self : @ParserObject ExModel)
  : parse_outcome * ParserObject :=
  parse get_field py_int py_float parse_one text self.

Definition new_parser : @ParserObject ExModel :=
  Parser__init__ MainModel default_database default_date_format.

End session.

(** * Properties *)

(** ** Induction on expression trees, through the argument lists *)

Section exp_induction.

Variable P : exp.t -> Prop.

Hypothesis H_Literal : forall l, P (exp.Literal l).
Hypothesis H_Column : forall c, P (exp.Column c).
Hypothesis H_Neg : forall this, P this -> P (exp.Neg this).
Hypothesis H_Not : forall this, P this -> P (exp.Not this).
Hypothesis H_Paren : forall this, P this -> P (exp.Paren this).
Hypothesis H_And : forall l r, P l -> P r -> P (exp.And l r).
Hypothesis H_Or : forall l r, P l -> P r -> P (exp.Or l r).
Hypothesis H_EQ : forall l r, P l -> P r -> P (exp.EQ l r).
Hypothesis H_Is : forall l r, P l -> P r -> P (exp.Is l r).
Hypothesis H_NEQ : forall l r, P l -> P r -> P (exp.NEQ l r).
Hypothesis H_GT : forall l r, P l -> P r -> P (exp.GT l r).
Hypothesis H_LT : forall l r, P l -> P r -> P (exp.LT l r).
Hypothesis H_GTE : forall l r, P l -> P r -> P (exp.GTE l r).
Hypothesis H_LTE : forall l r, P l -> P r -> P (exp.LTE l r).
Hypothesis H_RegexpLike : forall l r, P l -> P r -> P (exp.RegexpLike l r).
Hypothesis H_Add : forall l r, P l -> P r -> P (exp.Add l r).
Hypothesis H_Sub : forall l r, P l -> P r -> P (exp.Sub l r).
Hypothesis H_Mul : forall l r, P l -> P r -> P (exp.Mul l r).
Hypothesis H_Div : forall l r, P l -> P r -> P (exp.Div l r).
Hypothesis H_Between :
  forall this low high, P this -> P low -> P high ->
    P (exp.Between this low high).
Hypothesis H_In :
  forall this es, P this -> Forall P es -> P (exp.In this es).
Hypothesis H_Anonymous :
  forall name es, Forall P es -> P (exp.Anonymous name es).
Hypothesis H_Null : P exp.Null.
Hypothesis H_Other : P exp.Other.
Hypothesis H_ColumnStar :
  forall table db catalog, P (exp.ColumnStar table db catalog).
Hypothesis H_AnonymousIdentifier :
  forall this es, P (exp.AnonymousIdentifier this es).

Fixpoint exp_tree_ind (p : exp.t) : P p :=
  let all :=
    fix all (es : list exp.t) : Forall P es :=
      match es with
      | [] => List.Forall_nil P
      | e :: es' => @List.Forall_cons _ P e es' (exp_tree_ind e) (all es')
      end in
  match p with
  | exp.Literal l => H_Literal l
  | exp.Column c => H_Column c
  | exp.Neg a => H_Neg a (exp_tree_ind a)
  | exp.Not a => H_Not a (exp_tree_ind a)
  | exp.Paren a => H_Paren a (exp_tree_ind a)
  | exp.And a b => H_And a b (exp_tree_ind a) (exp_tree_ind b)
  | exp.Or a b => H_Or a b (exp_tree_ind a) (exp_tree_ind b)
  | exp.EQ a b => H_EQ a b (exp_tree_ind a) (exp_tree_ind b)
  | exp.Is a b => H_Is a b (exp_tree_ind a) (exp_tree_ind b)
  | exp.NEQ a b => H_NEQ a b (exp_tree_ind a) (exp_tree_ind b)
  | exp.GT a b => H_GT a b (exp_tree_ind a) (exp_tree_ind b)
  | exp.LT a b => H_LT a b (exp_tree_ind a) (exp_tree_ind b)
  | exp.GTE a b => H_GTE a b (exp_tree_ind a) (exp_tree_ind b)
  | exp.LTE a b => H_LTE a b (exp_tree_ind a) (exp_tree_ind b)
  | exp.RegexpLike a b => H_RegexpLike a b (exp_tree_ind a) (exp_tree_ind b)
  | exp.Add a b => H_Add a b (exp_tree_ind a) (exp_tree_ind b)
  | exp.Sub a b => H_Sub a b (exp_tree_ind a) (exp_tree_ind b)
  | exp.Mul a b => H_Mul a b (exp_tree_ind a) (exp_tree_ind b)
  | exp.Div a b => H_Div a b (exp_tree_ind a) (exp_tree_ind b)
  | exp.Between a b c =>
      H_Between a b c (exp_tree_ind a) (exp_tree_ind b) (exp_tree_ind c)
  | exp.In a es => H_In a es (exp_tree_ind a) (all es)
  | exp.Anonymous name es => H_Anonymous name es (all es)
  | exp.Null => H_Null
  | exp.Other => H_Other
  | exp.ColumnStar table db catalog => H_ColumnStar table db catalog
  | exp.AnonymousIdentifier this es => H_AnonymousIdentifier this es
  end.

End exp_induction.

Section Properties.

Context {Model : Type}.
Variable get_field : Model -> string -> option (@Field Model).
Variable py_int : string -> option Z.
Variable py_float : string -> option float.

Local Abbreviation resolve := (_resolve get_field py_int py_float).
Local Abbreviation resolve_cone := (_resolve_cone get_field py_int py_float).
Local Abbreviation resolve_column := (_resolve_column get_field).
Local Abbreviation Parser := (@Parser Model).
Local Abbreviation M := (@M Model).
Local Abbreviation no_fault := (fault_free get_field py_int py_float).

(** ** The frame of a resolution *)

Lemma frame_refl (self : Parser) : frame self self.
Proof.
  repeat split. exists []. now rewrite app_nil_r.
Qed.

Lemma frame_trans (s1 s2 s3 : Parser) :
  frame s1 s2 -> frame s2 s3 -> frame s1 s3.
Proof.
  intros (Hm & Ha & l & Hl) (Hm' & Ha' & l' & Hl').
  repeat split; [congruence | congruence |].
  exists (l ++ l'). rewrite Hl', Hl. now rewrite app_assoc.
Qed.

Lemma keeps_ret {A} (a : A) : keeps (@ret Model A a).
Proof. intros self. apply frame_refl. Qed.

Lemma keeps_raise {A} e : keeps (@raise Model A e).
Proof. intros self. apply frame_refl. Qed.

Lemma keeps_lift {A} (r : result A) : keeps (@lift Model A r).
Proof. intros self. apply frame_refl. Qed.

Lemma keeps_of_option {A} e (o : option A) : keeps (@of_option Model A e o).
Proof. destruct o; [apply keeps_ret | apply keeps_raise]. Qed.

Lemma keeps_bind {A B} (m : M A) (k : A -> M B) :
  keeps m -> (forall a, keeps (k a)) -> keeps (@bind Model A B m k).
Proof.
  intros Hm Hk self. unfold bind.
  specialize (Hm self). destruct (m self) as [[a | e] self']; simpl in *.
  - eapply frame_trans; [exact Hm | apply Hk].
  - exact Hm.
Qed.

Lemma keeps_for_each {A B} (f : A -> M B) (l : list A) :
  Forall (fun x => keeps (f x)) l -> keeps (@for_each Model A B f l).
Proof.
  induction 1 as [| x l Hx _ IH]; simpl.
  - apply keeps_ret.
  - apply keeps_bind; [exact Hx | intros a].
    apply keeps_bind; [exact IH | intros xs]. apply keeps_ret.
Qed.

Lemma keeps_resolve_column c : keeps (resolve_column c).
Proof.
  intros self. unfold _resolve_column.
  destruct (descend get_field (Some (model self)) (exp.parts c))
    as [[[m |] [| part0 ps]] | e]; simpl; try apply frame_refl.
  destruct (get_field m (exp.id_this part0)); simpl; apply frame_refl.
Qed.

Lemma keeps_append_cone c : keeps (@append_cone Model c).
Proof.
  intros self. unfold append_cone, frame; simpl. repeat split. now exists [c].
Qed.

Lemma keeps_cone_count : keeps (@cone_count Model).
Proof. intros self. apply frame_refl. Qed.

Create HintDb keeps.
Hint Resolve keeps_ret keeps_raise keeps_lift keeps_of_option
  keeps_resolve_column keeps_append_cone keeps_cone_count : keeps.

Ltac keeps_step :=
  first [ apply keeps_bind; [| intros ?] | solve [auto with keeps] ].

Lemma keeps_resolve_cone_with (f : exp.t -> M obj) es :
  Forall (fun e => keeps (f e)) es -> keeps (resolve_cone_with f es).
Proof.
  intros Hes. unfold resolve_cone_with.
  destruct es as [| e0 [| e1 [| e2 [| e3 es]]]]; auto with keeps.
  inversion Hes as [| ? ? H0 Hes1]; subst.
  inversion Hes1 as [| ? ? H1 Hes2]; subst.
  inversion Hes2 as [| ? ? H2 _]; subst.
  repeat keeps_step.
Qed.

Lemma keeps_resolve p : keeps (resolve p).
Proof.
  induction p using exp_tree_ind; simpl;
    repeat match goal with
           | |- keeps (if ?b then _ else _) => destruct b
           end;
    try solve [repeat keeps_step].
  - apply keeps_bind; [assumption | intros ?].
    apply keeps_bind; [now apply keeps_for_each | intros ?]. auto with keeps.
  - now apply keeps_resolve_cone_with.
Qed.

(** C10: no resolution, successful or failed, writes the aliases map:
    after resolving any tree on any parser instance the aliases are the
    ones before, so on a fresh instance they are still empty; the model
    is untouched as well and the cones list only grows at its end. *)
Theorem aliases_never_written (p : exp.t) (self : Parser) (m : Model) :
  aliases (extra_params (snd (resolve p self))) = aliases (extra_params self)
  /\ aliases (extra_params (snd (resolve p (Parser_init m)))) = ∅
  /\ model (snd (resolve p self)) = model self
  /\ exists added,
      cones (extra_params (snd (resolve p self)))
      = cones (extra_params self) ++ added.
Proof.
  destruct (keeps_resolve p self) as (Hm & Ha & Hc).
  destruct (keeps_resolve p (Parser_init m)) as (_ & Ha' & _).
  repeat split; assumption.
Qed.

(** ** Running [bind] *)

Lemma bind_Ok {A B} (m : M A) (k : A -> M B) self a self1 :
  m self = (Ok a, self1) -> bind m k self = k a self1.
Proof. intros H. unfold bind. now rewrite H. Qed.

Lemma bind_Err {A B} (m : M A) (k : A -> M B) self e self1 :
  m self = (Err e, self1) -> bind m k self = (Err e, self1).
Proof. intros H. unfold bind. now rewrite H. Qed.

(** ** Field paths *)

Lemma parts_last c :
  exists qualifiers, exp.parts c = qualifiers ++ [exp.col_this c].
Proof.
  unfold exp.parts.
  exists (option_list (exp.catalog c) ++ option_list (exp.db c)
            ++ option_list (exp.table c)).
  now rewrite <- !app_assoc.
Qed.

Lemma descend_step mdl q1 q2 rest :
  descend get_field mdl (q1 :: q2 :: rest) =
    match mdl with
    | None => Err AttributeError
    | Some m =>
        match get_field m (exp.id_this q1) with
        | None => Err django_FieldDoesNotExist
        | Some fld => descend get_field (related_model fld) (q2 :: rest)
        end
    end.
Proof. reflexivity. Qed.

Lemma relational_prefix_step m q1 q2 rest :
  relational_prefix get_field m (q1 :: q2 :: rest) =
    match get_field m (exp.id_this q1) with
    | Some fld =>
        match related_model fld with
        | Some m' => relational_prefix get_field m' (q2 :: rest)
        | None => false
        end
    | None => false
    end.
Proof. reflexivity. Qed.

(** Across relations the loop stops at the last identifier, on a model. *)
Lemma descend_relational qualifiers : forall m x,
  relational_prefix get_field m (qualifiers ++ [x]) = true ->
  exists m', descend get_field (Some m) (qualifiers ++ [x]) = Ok (Some m', [x]).
Proof.
  induction qualifiers as [| q qs IH]; intros m x H.
  - exists m. reflexivity.
  - change ((q :: qs) ++ [x]) with (q :: (qs ++ [x])) in *.
    destruct (qs ++ [x]) as [| y rest] eqn:E.
    { destruct qs; discriminate. }
    rewrite relational_prefix_step in H. rewrite descend_step.
    destruct (get_field m (exp.id_this q)) as [fld |]; [| discriminate].
    destruct (related_model fld) as [m1 |]; [| discriminate].
    rewrite <- E in *. apply IH. exact H.
Qed.

(** The part of [_resolve_column] that the [try] covers: when every
    identifier before the last names a relation, a last identifier that
    is no field of the model reached raises the package's
    FieldDoesNotExist with that identifier, and otherwise the result is
    [F] of all identifiers joined with two underscores. *)
Lemma resolve_column_final c self :
  relational_prefix get_field (model self) (exp.parts c) = true ->
  exists m',
    resolve_column c self =
      (match get_field m' (exp.id_this (exp.col_this c)) with
       | Some _ => Ok (F (String.concat "__" (map exp.id_this (exp.parts c))))
       | None => Err (FieldDoesNotExist (exp.id_this (exp.col_this c)))
       end, self).
Proof.
  intros H. destruct (parts_last c) as [qs Hqs].
  unfold _resolve_column. rewrite Hqs in H |- *.
  destruct (descend_relational qs _ _ H) as [m' Hd].
  exists m'. rewrite Hd.
  now destruct (get_field m' (exp.id_this (exp.col_this c))).
Qed.

(** An identifier before the last that is no field of the model: the
    FieldDoesNotExist of django escapes. *)
Lemma resolve_column_first_missing c self q1 q2 rest :
  exp.parts c = q1 :: q2 :: rest ->
  get_field (model self) (exp.id_this q1) = None ->
  resolve_column c self = (Err django_FieldDoesNotExist, self).
Proof.
  intros Hp Hq. unfold _resolve_column.
  now rewrite Hp, descend_step, Hq.
Qed.

(** An identifier before the last that names a field without related
    model: the attribute access on [None] raises. *)
Lemma resolve_column_first_plain c self q1 q2 rest :
  exp.parts c = q1 :: q2 :: rest ->
  get_field (model self) (exp.id_this q1) = Some (mkField None) ->
  resolve_column c self = (Err AttributeError, self).
Proof.
  intros Hp Hq. unfold _resolve_column.
  rewrite Hp, descend_step, Hq. cbn [related_model].
  destruct rest; reflexivity.
Qed.

(** ** Literals, identifiers and comparisons with NULL *)

(** C5: a string literal resolves to a [Value] holding its text as a
    string; a literal that is an integer, with text that [int] accepts,
    to a [Value] holding that integer, not a float; a number literal
    that is no integer, with text that [float] accepts, to a [Value]
    holding that float; a literal that is none of the three raises
    InvalidLiteral.  [self] is unchanged. *)
Theorem literal_resolution (l : exp.LiteralNode) (self : Parser) :
  (exp.is_string l = true ->
     resolve (exp.Literal l) self = (Ok (Value (PyStr (exp.lit_this l))), self))
  /\ (forall z, exp.is_string l = false -> exp.is_int l = true ->
        py_int (exp.lit_this l) = Some z ->
        resolve (exp.Literal l) self = (Ok (Value (PyInt z)), self))
  /\ (forall f, exp.is_string l = false -> exp.is_int l = false ->
        exp.is_number l = true -> py_float (exp.lit_this l) = Some f ->
        resolve (exp.Literal l) self = (Ok (Value (PyFloat f)), self))
  /\ (exp.is_string l = false -> exp.is_int l = false ->
      exp.is_number l = false ->
      resolve (exp.Literal l) self = (Err InvalidLiteral, self)).
Proof.
  repeat split; intros; simpl;
    repeat match goal with H : _ = _ |- _ => rewrite H end; reflexivity.
Qed.

(** C7: a column whose identifier is quoted resolves to a [Value]
    holding the identifier's text as a string, whatever fields the
    schema has, and so never to an [F]; a column whose identifier is not
    quoted is resolved by [_resolve_column]. *)
Theorem quoted_identifier_is_string (c : exp.ColumnNode) (self : Parser) :
  (exp.quoted (exp.col_this c) = true ->
     resolve (exp.Column c) self
     = (Ok (Value (PyStr (exp.id_this (exp.col_this c)))), self)
     /\ forall name, fst (resolve (exp.Column c) self) <> Ok (F name))
  /\ (exp.quoted (exp.col_this c) = false ->
      resolve (exp.Column c) self = resolve_column c self).
Proof.
  split; intros H; simpl; rewrite H; [split |]; try reflexivity.
  intros name. simpl. discriminate.
Qed.

(** C6: with the left side resolved to [x], [EQ] and [Is] against a
    [Null] right side give [IsNull(x, True)] and [NEQ] gives
    [IsNull(x, False)]; with a right side that is not [Null] and
    resolves to [y], [EQ] and [Is] give [Exact(x, y)] and [NEQ] gives
    its negation. *)
Theorem null_comparisons (left_ : exp.t) (self self1 : Parser) (x : obj) :
  resolve left_ self = (Ok x, self1) ->
  resolve (exp.EQ left_ exp.Null) self = (Ok (IsNull x true), self1)
  /\ resolve (exp.Is left_ exp.Null) self = (Ok (IsNull x true), self1)
  /\ resolve (exp.NEQ left_ exp.Null) self = (Ok (IsNull x false), self1)
  /\ forall right_ y self2,
      exp.is_Null right_ = false ->
      resolve right_ self1 = (Ok y, self2) ->
      resolve (exp.EQ left_ right_) self = (Ok (Lookup Exact x y), self2)
      /\ resolve (exp.Is left_ right_) self = (Ok (Lookup Exact x y), self2)
      /\ resolve (exp.NEQ left_ right_) self
         = (Ok (NegatedExpression (Lookup Exact x y)), self2).
Proof.
  intros Hl.
  repeat split; try (simpl; now rewrite (bind_Ok _ _ _ _ _ Hl)).
  all: simpl; rewrite H; rewrite (bind_Ok _ _ _ _ _ Hl);
    now rewrite (bind_Ok _ _ _ _ _ H0).
Qed.

(** ** What kind of object a node returns *)

(** Case analysis on every [match] of a hypothesis about a run. *)
Ltac crunch H :=
  unfold resolve_cone_with, of_option, combine, neg, value, py_neg in H;
  unfold bind, ret, raise, lift, cone_count, append_cone in H;
  repeat (simplify_eq;
          match goal with
          | H' : ?lhs = _ |- _ =>
              match lhs with
              | context [match ?t with _ => _ end] =>
                  let E := fresh "E" in destruct t eqn:E
              end
          end);
  simplify_eq.

Lemma resolve_column_Ok c self x self' :
  resolve_column c self = (Ok x, self') -> self' = self /\ exists n, x = F n.
Proof.
  unfold _resolve_column. intros H. crunch H. eauto.
Qed.

Lemma descend_raises ps : forall mdl e,
  descend get_field mdl ps = Err e ->
  e = AttributeError \/ e = django_FieldDoesNotExist.
Proof.
  induction ps as [| q1 [| q2 rest] IH]; intros mdl e E; try discriminate E.
  rewrite descend_step in E.
  destruct mdl as [m0 |]; [| inversion E; auto].
  destruct (get_field m0 (exp.id_this q1)); [| inversion E; auto]. eauto.
Qed.

Lemma resolve_column_raises c self e self' :
  resolve_column c self = (Err e, self') ->
  e <> InvalidConeNumberArguments /\ e <> InvalidQuery /\ e <> InvalidLiteral.
Proof.
  unfold _resolve_column. intros H. crunch H.
  all: repeat split; try discriminate.
  all: match goal with
       | E : descend _ _ _ = Err _ |- _ =>
           destruct (descend_raises _ _ _ E); subst; discriminate
       end.
Qed.

Lemma resolve_kind p : forall self x self',
  resolve p self = (Ok x, self') ->
  is_Value x = returns_Value p /\ is_Q x = returns_Q p.
Proof.
  induction p using exp_tree_ind; intros self x self' Hrun;
    cbn [_resolve] in Hrun.
  all: try (crunch Hrun; simpl; auto; fail).
  - destruct (exp.quoted (exp.col_this c)) eqn:Eq.
    + inversion Hrun; subst. simpl. now rewrite Eq.
    + apply resolve_column_Ok in Hrun as (_ & n & ->). simpl. now rewrite Eq.
  - eapply IHp; eassumption.
Qed.

Lemma resolve_Value_literal l self : snd (resolve (exp.Literal l) self) = self.
Proof.
  cbn [_resolve].
  destruct (exp.is_string l); [reflexivity |].
  destruct (exp.is_int l).
  { unfold bind. now destruct (py_int (exp.lit_this l)). }
  destruct (exp.is_number l); [| reflexivity].
  unfold bind. now destruct (py_float (exp.lit_this l)).
Qed.

(** A node that returns a [Value] leaves [self] as it is. *)
Lemma resolve_Value_pure p : forall self,
  returns_Value p = true -> snd (resolve p self) = self.
Proof.
  induction p using exp_tree_ind; intros self Hv; try discriminate Hv.
  - apply resolve_Value_literal.
  - simpl in Hv |- *. now rewrite Hv.
  - cbn [returns_Value] in Hv. cbn [_resolve]. rewrite Hv.
    destruct p; try discriminate Hv. clear IHp.
    unfold bind. destruct (resolve (exp.Literal l) self) as [[r |] s1] eqn:E;
      pose proof (resolve_Value_literal l self) as Hl; rewrite E in Hl;
      simpl in Hl; subst s1; [| reflexivity].
    unfold lift. destruct (value r); [| reflexivity].
    now destruct (py_neg a).
  - apply IHp. exact Hv.
Qed.

Lemma resolve_Value_same p self v self' :
  resolve p self = (Ok (Value v), self') -> self' = self.
Proof.
  intros H. destruct (resolve_kind p _ _ _ H) as [Hv _].
  pose proof (resolve_Value_pure p self (eq_sym Hv)) as Hs.
  now rewrite H in Hs.
Qed.

(** ** Cone calls *)

Lemma resolve_Anonymous_cone name es :
  is_cone name = true -> resolve (exp.Anonymous name es) = resolve_cone es.
Proof. intros H. cbn [_resolve]. now rewrite H. Qed.

(** The arguments are not validated: the first one that resolves to an
    object without [value] attribute, such as a field reference, makes
    the call raise AttributeError. *)
Lemma cone_argument_without_value e0 e1 e2 self x self1 :
  resolve e0 self = (Ok x, self1) -> is_Value x = false ->
  resolve_cone [e0; e1; e2] self = (Err AttributeError, self1).
Proof.
  intros H0 Hx. unfold _resolve_cone, resolve_cone_with.
  rewrite (bind_Ok _ _ _ _ _ H0).
  destruct x; try discriminate Hx; reflexivity.
Qed.

(** A cone call whose three arguments resolve to [Value]s reads the
    length [n] of the cones list as it is before the append, appends
    the record of the three values, and returns the [Q] object with the
    one condition that the field named cone_query (for [n = 0]) or
    cone_query followed by the decimal digits of [n] (for [n >= 1], the
    call number [n + 1]) is [True].  Resolving the arguments changes
    nothing on [self]. *)
Theorem cone_synthetic_name (name : string) (e0 e1 e2 : exp.t)
    (self s1 s2 s3 : Parser) (ra dec radius : pyval) :
  is_cone name = true ->
  resolve e0 self = (Ok (Value ra), s1) ->
  resolve e1 s1 = (Ok (Value dec), s2) ->
  resolve e2 s2 = (Ok (Value radius), s3) ->
  let n := length (cones (extra_params self)) in
  s3 = self
  /\ resolve (exp.Anonymous name [e0; e1; e2]) self =
     (Ok (Q_kwargs ("cone_query" +:+ (if Nat.eqb n 0 then "" else str n))
            (PyBool true)),
      mkParser (model self)
        (mkExtra (cones (extra_params self) ++ [mkCone ra dec radius])
           (aliases (extra_params self)))).
Proof.
  intros Hname H0 H1 H2 n.
  pose proof (resolve_Value_same _ _ _ _ H0) as ->.
  pose proof (resolve_Value_same _ _ _ _ H1) as ->.
  pose proof (resolve_Value_same _ _ _ _ H2) as ->.
  split; [reflexivity |].
  rewrite (resolve_Anonymous_cone _ _ Hname).
  unfold _resolve_cone, resolve_cone_with.
  rewrite (bind_Ok _ _ _ _ _ H0). cbn [value].
  unfold bind at 1, lift at 1.
  rewrite (bind_Ok _ _ _ _ _ H1). cbn [value].
  unfold bind at 1, lift at 1.
  rewrite (bind_Ok _ _ _ _ _ H2). cbn [value].
  reflexivity.
Qed.

Lemma for_each_raises (Q : exp.t -> bool) e (es : list exp.t) :
  Forall (fun p => forall self self',
            resolve p self = (Err e, self') -> Q p = true) es ->
  forall self self',
    for_each resolve es self = (Err e, self') -> existsb Q es = true.
Proof.
  induction 1 as [| p es Hp _ IH]; intros self self' Hrun;
    cbn [for_each] in Hrun.
  - discriminate.
  - crunch Hrun; cbn [existsb].
    + erewrite IH by eassumption. apply orb_true_r.
    + erewrite Hp by eassumption. reflexivity.
Qed.

(** InvalidConeNumberArguments comes from a cone call with a number of
    arguments other than 3, and from nowhere else. *)
Lemma resolve_raises_cone_arity p : forall self self',
  resolve p self = (Err InvalidConeNumberArguments, self') ->
  bad_arity_cone p = true.
Proof.
  induction p using exp_tree_ind; intros self self' Hrun;
    cbn [_resolve] in Hrun; cbn [bad_arity_cone].
  all: try (crunch Hrun;
            repeat match goal with
                   | IH : forall s s' : Parser, resolve ?p s = _ -> _,
                     E : resolve ?p _ = (Err _, _) |- _ =>
                       rewrite (IH _ _ E); clear E
                   end;
            rewrite ?orb_true_r; reflexivity).
  - destruct (exp.quoted (exp.col_this c)); [discriminate |].
    apply resolve_column_raises in Hrun. now destruct Hrun.
  - unfold bind in Hrun.
    destruct (resolve p self) as [[x |] s1] eqn:E1.
    + destruct (for_each resolve es s1) as [[xs |] s2] eqn:E2;
        inversion Hrun; subst.
      erewrite (for_each_raises bad_arity_cone) by eassumption.
      apply orb_true_r.
    + inversion Hrun; subst. now rewrite (IHp _ _ E1).
  - destruct (is_cone name); [| discriminate]. cbn [andb].
    destruct es as [| e0 [| e1 [| e2 [| e3 es]]]]; try reflexivity.
    cbn [length Nat.eqb negb orb].
    inversion H as [| ? ? H0 Hes1]; subst.
    inversion Hes1 as [| ? ? H1 Hes2]; subst.
    inversion Hes2 as [| ? ? H2 _]; subst.
    crunch Hrun; cbn [existsb];
      repeat match goal with
             | IH : forall s s' : Parser, resolve ?p s = _ -> _,
               E : resolve ?p _ = (Err _, _) |- _ =>
                 rewrite (IH _ _ E); clear E
             end;
      rewrite ?orb_true_r; reflexivity.
Qed.

(** C8: [_resolve_cone] raises InvalidConeNumberArguments whenever the
    argument list has a length other than 3; with exactly 3 arguments
    it raises InvalidConeNumberArguments only when the error comes out
    of the resolution of an argument, which then contains a cone call
    with a number of arguments other than 3. *)
Theorem cone_argument_count (expressions : list exp.t) (self : Parser) :
  (length expressions <> 3 ->
     resolve_cone expressions self = (Err InvalidConeNumberArguments, self))
  /\ (length expressions = 3 ->
      fst (resolve_cone expressions self) = Err InvalidConeNumberArguments ->
      existsb bad_arity_cone expressions = true).
Proof.
  split.
  - intros Hlen. unfold _resolve_cone, resolve_cone_with.
    destruct expressions as [| e0 [| e1 [| e2 [| e3 es]]]];
      try reflexivity.
    now contradiction Hlen.
  - intros Hlen Hrun.
    destruct (resolve_cone expressions self) as [r self'] eqn:E.
    simpl in Hrun; subst r.
    assert (Hb : bad_arity_cone (exp.Anonymous "cone" expressions) = true).
    { apply (resolve_raises_cone_arity _ self self'). exact E. }
    cbn [bad_arity_cone] in Hb. rewrite Hlen in Hb. exact Hb.
Qed.

(** ** NULL outside of a comparison *)




(** ** Where the faults of the host come from *)

Lemma resolve_model p self r self' :
  resolve p self = (r, self') -> model self' = model self.
Proof.
  intros H. destruct (keeps_resolve p self) as [Hm _]. now rewrite H in Hm.
Qed.

Lemma for_each_model es self r self' :
  for_each resolve es self = (r, self') -> model self' = model self.
Proof.
  intros H.
  assert (Hk : keeps (for_each resolve es)).
  { apply keeps_for_each, Forall_forall. intros; apply keeps_resolve. }
  destruct (Hk self) as [Hm _]. now rewrite H in Hm.
Qed.

(** Collects, for every run in the context, the model it leaves and the
    kind of object it returned. *)
Ltac run_facts :=
  repeat match goal with
         | E : resolve ?p ?s = (Ok ?a, ?s') |- _ =>
             let Hv := fresh "Hv" in
             let Hq := fresh "Hq" in
             destruct (resolve_kind p s a s' E) as [Hv Hq];
             cbn [is_Value is_Q] in Hv, Hq;
             pose proof (resolve_model p s _ s' E);
             clear E
         | E : for_each resolve ?es ?s = (Ok _, ?s') |- _ =>
             pose proof (for_each_model es s _ s' E); clear E
         end.

Ltac to_initial_model :=
  repeat match goal with
         | H : model ?s' = model ?s |- _ => try rewrite H in *; clear H
         end.

Ltac bool_false :=
  repeat match goal with
         | H : is_Q ?a = _ |- _ => try rewrite H in *; clear H
         | H : is_Value ?a = _ |- _ => try rewrite H in *; clear H
         end;
  repeat match goal with
         | H : ?b = false |- context [?b] => rewrite H
         | H : ?b = true |- context [?b] => rewrite H
         | H : false = ?b |- context [?b] => rewrite <- H
         | H : true = ?b |- context [?b] => rewrite <- H
         end;
  cbn [negb andb orb];
  rewrite ?andb_false_r, ?orb_true_r; cbn [negb andb orb];
  rewrite ?andb_false_r; try reflexivity.

Lemma resolve_column_fault c self e self' :
  resolve_column c self = (Err e, self') -> typed e = false ->
  relational_prefix get_field (model self) (exp.parts c) = false.
Proof.
  intros Hrun Ht.
  destruct (relational_prefix get_field (model self) (exp.parts c)) eqn:Er;
    [| reflexivity].
  destruct (resolve_column_final c self Er) as [m' Hf].
  rewrite Hf in Hrun.
  destruct (get_field m' (exp.id_this (exp.col_this c))); simplify_eq.
Qed.

Lemma for_each_fault m (es : list exp.t) :
  Forall (fun p => forall self e self',
            resolve p self = (Err e, self') -> typed e = false ->
            no_fault (model self) p = false) es ->
  forall self e self',
    model self = m ->
    for_each resolve es self = (Err e, self') -> typed e = false ->
    forallb (no_fault m) es = false.
Proof.
  induction 1 as [| p es Hp _ IH]; intros self e self' Hm Hrun Ht;
    cbn [for_each] in Hrun; [discriminate |].
  crunch Hrun; cbn [forallb]; run_facts.
  - erewrite IH; [apply andb_false_r | | eassumption | assumption].
    congruence.
  - erewrite Hp by eassumption. reflexivity.
Qed.

(** An error that is not one of the package comes from one of the
    constructs [fault_free] excludes. *)
Lemma resolve_fault p : forall self e self',
  resolve p self = (Err e, self') -> typed e = false ->
  no_fault (model self) p = false.
Proof.
  induction p using exp_tree_ind; intros self e self' Hrun Ht;
    cbn [_resolve] in Hrun; cbn [fault_free].
  all: try (crunch Hrun; try discriminate Ht; run_facts;
            repeat match goal with
                   | IH : forall (s : Parser) (e : exn) (s' : Parser),
                            resolve ?p s = _ -> _,
                     E : resolve ?p _ = (Err _, _) |- _ =>
                       pose proof (IH _ _ _ E Ht); clear E
                   end;
            to_initial_model; bool_false; fail).
  - unfold literal_parses. crunch Hrun; try discriminate Ht; reflexivity.
  - destruct (exp.quoted (exp.col_this c)); [discriminate Hrun |].
    cbn [orb]. eapply resolve_column_fault; eassumption.
  - destruct (exp.is_Literal p && negb (exp.expr_is_string p)) eqn:Ec.
    + destruct p; try discriminate Ec. cbn in Ec. clear IHp.
      cbn [_resolve fault_free] in *. unfold literal_parses.
      crunch Hrun; try discriminate Ht; try discriminate Ec; reflexivity.
    + cbn [orb]. crunch Hrun; try discriminate Ht; run_facts.
      * bool_false.
      * rewrite (IHp _ _ _ E Ht). reflexivity.
  - crunch Hrun.
    + run_facts.
      erewrite (for_each_fault (model self)); eauto using andb_false_r.
    + rewrite (IHp _ _ _ E Ht). reflexivity.
  - destruct (is_cone name); [| crunch Hrun; discriminate Ht].
    destruct es as [| e0 [| e1 [| e2 [| e3 es]]]];
      try (crunch Hrun; discriminate Ht).
    inversion H as [| ? ? H0 Hes1]; subst.
    inversion Hes1 as [| ? ? H1 Hes2]; subst.
    inversion Hes2 as [| ? ? H2 _]; subst.
    cbn [forallb].
    crunch Hrun; try discriminate Ht; run_facts;
      repeat match goal with
             | IH : forall (s : Parser) (e : exn) (s' : Parser),
                      resolve ?p s = _ -> _,
               E : resolve ?p _ = (Err _, _) |- _ =>
                 pose proof (IH _ _ _ E Ht); clear E
             end;
      to_initial_model; bool_false.
Qed.

(** C2: on a tree where every column is named by an identifier and
    every function by an unquoted name, number literals carry text that
    [int] and [float] accept, column paths cross relations only, unary
    minus is not applied to a [Q], no arithmetic operator joins two
    [Q], and the three arguments of every cone call return a [Value], a
    resolution on a parser for model [m] returns or raises one of the
    four exceptions of the package. *)
Theorem resolve_typed_errors (m : Model) (p : exp.t) (self : Parser) :
  no_fault m p = true -> model self = m ->
  ok_or_typed (fst (resolve p self)).
Proof.
  intros Hf Hm. destruct (resolve p self) as [[x | e] self'] eqn:E; simpl.
  - exact I.
  - destruct (typed e) eqn:Ht; [reflexivity |].
    pose proof (resolve_fault p self e self' E Ht) as Hc.
    rewrite Hm in Hc. congruence.
Qed.

(** ** Cone records follow the cone calls *)

Local Abbreviation records := (records get_field py_int py_float).
Local Abbreviation appends := (appends get_field py_int py_float).

Lemma appends_ret {A} (a : A) : appends (@ret Model A a) [].
Proof.
  intros self x self' H. unfold ret in H. simplify_eq.
  exists []. split; [now rewrite app_nil_r | constructor].
Qed.

Lemma appends_raise {A} e calls : appends (@raise Model A e) calls.
Proof. intros self x self' H. discriminate H. Qed.

Lemma appends_lift {A} (r : result A) : appends (@lift Model A r) [].
Proof.
  intros self x self' H. unfold lift in H. simplify_eq.
  exists []. split; [now rewrite app_nil_r | constructor].
Qed.

Lemma appends_of_option {A} e (o : option A) :
  appends (@of_option Model A e o) [].
Proof. destruct o; [apply appends_ret | apply appends_raise]. Qed.

Lemma appends_bind {A B} (m : M A) (k : A -> M B) c1 c2 :
  appends m c1 -> (forall a, appends (k a) c2) ->
  appends (bind m k) (c1 ++ c2).
Proof.
  intros Hm Hk self b self' H. unfold bind in H.
  destruct (m self) as [[a | e] s1] eqn:E; [| discriminate H].
  destruct (Hm _ _ _ E) as (l1 & H1 & F1).
  destruct (Hk a _ _ _ H) as (l2 & H2 & F2).
  exists (l1 ++ l2). split.
  - now rewrite H2, H1, app_assoc.
  - now apply Forall2_app.
Qed.

Lemma appends_eq {A} (m : M A) c c' : appends m c -> c = c' -> appends m c'.
Proof. now intros H <-. Qed.

Lemma appends_resolve_column c : appends (resolve_column c) [].
Proof.
  intros self x self' H. apply resolve_column_Ok in H as [-> _].
  exists []. split; [now rewrite app_nil_r | constructor].
Qed.

Lemma appends_for_each (es : list exp.t) :
  Forall (fun e => appends (resolve e) (cone_calls e)) es ->
  appends (for_each resolve es) (flat_map cone_calls es).
Proof.
  induction 1 as [| e es He _ IH]; cbn [for_each flat_map].
  - apply appends_ret.
  - eapply appends_eq.
    + apply appends_bind; [exact He | intros x].
      apply appends_bind; [exact IH | intros xs]. apply appends_ret.
    + now rewrite app_nil_r.
Qed.

Lemma returns_Value_no_cone p : returns_Value p = true -> cone_calls p = [].
Proof.
  induction p using exp_tree_ind; intros Hv; try discriminate Hv;
    cbn [cone_calls]; auto.
  destruct p; try discriminate Hv. reflexivity.
Qed.

(** What a node that returns a [Value] returns does not depend on
    [self]. *)
Lemma resolve_Value_anywhere p : returns_Value p = true ->
  forall s1 s2, fst (resolve p s1) = fst (resolve p s2).
Proof.
  assert (Hlit : forall l s1 s2,
             fst (resolve (exp.Literal l) s1) = fst (resolve (exp.Literal l) s2)).
  { intros l s1 s2. cbn [_resolve].
    destruct (exp.is_string l); [reflexivity |].
    destruct (exp.is_int l).
    { unfold bind. now destruct (py_int (exp.lit_this l)). }
    destruct (exp.is_number l); [| reflexivity].
    unfold bind. now destruct (py_float (exp.lit_this l)). }
  induction p using exp_tree_ind; intros Hv s1 s2; try discriminate Hv.
  - apply Hlit.
  - simpl in Hv |- *. now rewrite Hv.
  - cbn [returns_Value] in Hv. cbn [_resolve]. rewrite Hv.
    destruct p; try discriminate Hv. clear IHp.
    specialize (Hlit l s1 s2). unfold bind.
    destruct (resolve (exp.Literal l) s1) as [[r1 |] t1];
      destruct (resolve (exp.Literal l) s2) as [[r2 |] t2];
      simpl in Hlit; simplify_eq; [| reflexivity].
    unfold lift. destruct (value r2); [| reflexivity].
    now destruct (py_neg a).
  - cbn [_resolve]. apply IHp. exact Hv.
Qed.

Lemma resolve_Value_everywhere p s v s' :
  resolve p s = (Ok (Value v), s') ->
  forall s2, resolve p s2 = (Ok (Value v), s2).
Proof.
  intros H s2. destruct (resolve_kind p _ _ _ H) as [Hv _].
  cbn [is_Value] in Hv. symmetry in Hv.
  pose proof (resolve_Value_anywhere p Hv s s2) as Hfst.
  pose proof (resolve_Value_pure p s2 Hv) as Hsnd.
  rewrite H in Hfst. simpl in Hfst.
  destruct (resolve p s2) as [r t]. simpl in *. now subst.
Qed.

Lemma appends_resolve_cone es :
  appends (resolve_cone es) ([es] ++ flat_map cone_calls es).
Proof.
  intros self x self' Hrun. unfold _resolve_cone in Hrun.
  destruct es as [| e0 [| e1 [| e2 [| e3 es]]]]; try discriminate Hrun.
  crunch Hrun.
  repeat match goal with
         | E : resolve _ _ = (Ok (Value _), _) |- _ =>
             pose proof (resolve_Value_same _ _ _ _ E); subst;
             pose proof (resolve_Value_everywhere _ _ _ _ E);
             apply resolve_kind in E as [E _]; cbn [is_Value] in E;
             symmetry in E; apply returns_Value_no_cone in E
         end.
  cbn [flat_map extra_params cones].
  repeat match goal with E : cone_calls _ = [] |- _ => rewrite E; clear E end.
  eexists [_]. split; [reflexivity |].
  constructor; [| constructor].
  exists e0, e1, e2. split; [reflexivity |]. intros s. cbn. auto.
Qed.

Ltac split_orb :=
  repeat match goal with
         | H : _ || _ = false |- _ =>
             apply orb_false_elim in H; destruct H
         end.

Ltac appends_step :=
  first [ apply appends_ret | apply appends_raise | apply appends_lift
        | apply appends_of_option | apply appends_resolve_column
        | match goal with
          | IH : _ -> appends (resolve ?p) _ |- appends (resolve ?p) _ =>
              apply IH; assumption
          end
        | eapply appends_bind; [| intros ?] ].

(** When no [Between] subject contains a cone call, a resolution that
    returns has appended to the cones list exactly one record per cone
    call of the tree, in left-to-right depth-first order, each holding
    the values of the call's three arguments. *)
Lemma appends_resolve p :
  cone_in_between_subject p = false -> appends (resolve p) (cone_calls p).
Proof.
  induction p using exp_tree_ind; intros Hb;
    cbn [cone_in_between_subject] in Hb; split_orb;
    cbn [_resolve cone_calls].
  all: repeat match goal with
              | |- appends (if exp.is_Null ?r then _ else _) _ =>
                  let En := fresh "En" in
                  destruct (exp.is_Null r) eqn:En;
                  [destruct r; try discriminate En; cbn [cone_calls] |]
              | |- appends (if ?b then _ else _) _ => destruct b
              end.
  all: try (eapply appends_eq;
            [repeat appends_step | rewrite ?app_nil_r; reflexivity]).
  - destruct (cone_calls p1) eqn:Ec; [| discriminate].
    eapply appends_eq; [repeat appends_step |].
    cbn [app]. now rewrite app_nil_r.
  - assert (Hes : Forall (fun e => appends (resolve e) (cone_calls e)) es).
    { clear IHp. induction H as [| e es He _ IH]; [constructor |].
      cbn [existsb] in *. split_orb. constructor; auto. }
    eapply appends_eq.
    + apply appends_bind; [now apply IHp | intros x].
      apply appends_bind; [now apply appends_for_each | intros xs].
      apply appends_ret.
    + now rewrite app_nil_r.
  - apply appends_resolve_cone.
Qed.

(** * Further properties of the resolver *)

(** ** Columns *)

Lemma descend_Ok_inv ps : forall mdl mdl' tl,
  descend get_field mdl ps = Ok (mdl', tl) ->
  (tl = ps /\ mdl' = mdl /\ length ps <= 1)
  \/ (2 <= length ps /\ exists x, tl = [x] /\ last ps = Some x).
Proof.
  induction ps as [| q1 [| q2 rest] IH]; intros mdl mdl' tl H.
  - left. simpl in H. simplify_eq. auto.
  - left. simpl in H. simplify_eq. auto.
  - right. rewrite descend_step in H.
    destruct mdl as [m0 |]; [| discriminate H].
    destruct (get_field m0 (exp.id_this q1)) as [fld |]; [| discriminate H].
    apply IH in H as [(-> & _ & Hlen) | (_ & x & -> & Hlast)].
    + destruct rest; [| simpl in Hlen; lia].
      split; [simpl; lia |]. now exists q2.
    + split; [simpl; lia |]. exists x. split; [reflexivity |].
      exact Hlast.
Qed.

Lemma descend_Err_long ps mdl e :
  descend get_field mdl ps = Err e -> 2 <= length ps.
Proof.
  destruct ps as [| q1 [| q2 rest]]; try discriminate. simpl. lia.
Qed.

Lemma parts_last_Some c : last (exp.parts c) = Some (exp.col_this c).
Proof. destruct (parts_last c) as [qs ->]. apply last_snoc. Qed.

(** X1: an unquoted column without qualifier resolves to [F] of its
    name when the parser's model has a field of that name, and raises
    the package's FieldDoesNotExist with that name otherwise; no other
    outcome is possible and [self] is unchanged. *)
Theorem unqualified_column (c : exp.ColumnNode) (self : Parser) :
  exp.quoted (exp.col_this c) = false ->
  exp.parts c = [exp.col_this c] ->
  resolve (exp.Column c) self
  = (match get_field (model self) (exp.id_this (exp.col_this c)) with
     | Some _ => Ok (F (exp.id_this (exp.col_this c)))
     | None => Err (FieldDoesNotExist (exp.id_this (exp.col_this c)))
     end, self).
Proof.
  intros Hq Hp. cbn [_resolve]. rewrite Hq.
  unfold _resolve_column. rewrite Hp. cbn.
  now destruct (get_field (model self) (exp.id_this (exp.col_this c))).
Qed.

(** X2: on a dotted path whose identifiers before the last each name a
    relation, the loop of [_resolve_column] ends on the last identifier
    and on the model [m'] the relations lead to; the column resolves to
    [F] of all identifiers joined with two underscores when [m'] has
    the last identifier as a field, and raises FieldDoesNotExist with
    the last identifier otherwise. *)
Theorem dotted_column (c : exp.ColumnNode) (self : Parser) :
  exp.quoted (exp.col_this c) = false ->
  relational_prefix get_field (model self) (exp.parts c) = true ->
  exists m',
    descend get_field (Some (model self)) (exp.parts c)
    = Ok (Some m', [exp.col_this c])
    /\ resolve (exp.Column c) self
       = (match get_field m' (exp.id_this (exp.col_this c)) with
          | Some _ =>
              Ok (F (String.concat "__" (map exp.id_this (exp.parts c))))
          | None => Err (FieldDoesNotExist (exp.id_this (exp.col_this c)))
          end, self).
Proof.
  intros Hq Hrel. cbn [_resolve]. rewrite Hq.
  destruct (parts_last c) as [qs Hqs].
  unfold _resolve_column. rewrite Hqs in Hrel |- *.
  destruct (descend_relational qs _ _ Hrel) as [m' Hd].
  exists m'. split; [exact Hd |]. rewrite Hd.
  now destruct (get_field m' (exp.id_this (exp.col_this c))).
Qed.

Lemma resolve_column_Err c self e self' :
  resolve_column c self = (Err e, self') ->
  self' = self
  /\ (e = FieldDoesNotExist (exp.id_this (exp.col_this c))
      \/ ((e = django_FieldDoesNotExist \/ e = AttributeError)
          /\ 2 <= length (exp.parts c))).
Proof.
  unfold _resolve_column. intros H.
  pose proof (parts_last_Some c) as Hlast.
  destruct (descend get_field (Some (model self)) (exp.parts c))
    as [[mdl tl] | e0] eqn:Ed.
  - apply descend_Ok_inv in Ed
      as [(-> & -> & Hlen) | (Hlen & x & -> & Hx)].
    + destruct (exp.parts c) as [| part0 [| ? ?]] eqn:Ep;
        simpl in Hlen, Hlast; try lia; [discriminate Hlast |].
      simplify_eq.
      destruct (get_field (model self) (exp.id_this (exp.col_this c)));
        simplify_eq. auto.
    + rewrite Hlast in Hx. simplify_eq.
      destruct mdl as [m |]; [| simplify_eq; auto].
      destruct (get_field m (exp.id_this (exp.col_this c)));
        simplify_eq. auto.
  - simplify_eq. split; [reflexivity |]. right.
    split; [| eapply descend_Err_long; eassumption].
    destruct (descend_raises _ _ _ Ed); auto.
Qed.

(** X3: [_resolve_column] never changes [self], and the only errors it
    raises are the package's FieldDoesNotExist, always carrying the
    column's own name (the last identifier), and, on paths of two or
    more identifiers only, django's FieldDoesNotExist and
    AttributeError. *)
Theorem column_errors (c : exp.ColumnNode) (self self' : Parser) (e : exn) :
  resolve_column c self = (Err e, self') ->
  self' = self
  /\ (e = FieldDoesNotExist (exp.id_this (exp.col_this c))
      \/ ((e = django_FieldDoesNotExist \/ e = AttributeError)
          /\ 2 <= length (exp.parts c))).
Proof.
  apply resolve_column_Err.
Qed.

(** ** The kind of object a node returns *)

(** X4: what class of object a resolution returns is fixed by the node:
    a [Value] exactly for a literal, a quoted identifier, a negated
    number literal and these in parentheses; a [Q] exactly for [Not],
    [And], [Or], [Between] and a cone call, and these in parentheses.
    So comparisons, [In], arithmetic and unquoted columns return
    neither, and arithmetic on two literals is not folded into a
    [Value]. *)
Theorem result_kind (p : exp.t) (self self' : Parser) (x : obj) :
  resolve p self = (Ok x, self') ->
  is_Value x = returns_Value p /\ is_Q x = returns_Q p.
Proof. apply resolve_kind. Qed.

(** ** Unary minus and arithmetic *)

(** X5: unary minus folds only on a number literal: the negation of an
    integer or float literal is the [Value] of the negated number; on
    any other operand that resolves to [x], a string literal and a
    negated literal included, it is the product of [x] and [Value(-1)],
    unless the operand is one of the nodes that return a [Q], on which
    it raises TypeError. *)
Theorem unary_minus (self : Parser) :
  (forall l z, exp.is_string l = false -> exp.is_int l = true ->
     py_int (exp.lit_this l) = Some z ->
     resolve (exp.Neg (exp.Literal l)) self = (Ok (Value (PyInt (- z))), self))
  /\ (forall l f, exp.is_string l = false -> exp.is_int l = false ->
       exp.is_number l = true -> py_float (exp.lit_this l) = Some f ->
       resolve (exp.Neg (exp.Literal l)) self
       = (Ok (Value (PyFloat (- f)%float)), self))
  /\ (forall this x self1,
       exp.is_Literal this && negb (exp.expr_is_string this) = false ->
       resolve this self = (Ok x, self1) ->
       resolve (exp.Neg this) self
       = (if returns_Q this then Err TypeError
          else Ok (CombinedExpression x MUL (Value (PyInt (-1)))), self1)).
Proof.
  split; [| split].
  - intros l z Hs Hi Hz. cbn [_resolve exp.is_Literal exp.expr_is_string].
    rewrite ?Hs, ?Hi. cbn [negb andb]. unfold bind, of_option.
    rewrite ?Hs, ?Hi, Hz. reflexivity.
  - intros l f Hs Hi Hn Hf. cbn [_resolve exp.is_Literal exp.expr_is_string].
    rewrite ?Hs, ?Hi, ?Hn. cbn [negb andb]. unfold bind, of_option.
    rewrite ?Hs, ?Hi, ?Hn, Hf. reflexivity.
  - intros this x self1 Hc Hx. cbn [_resolve]. rewrite Hc.
    rewrite (bind_Ok _ _ _ _ _ Hx).
    destruct (resolve_kind _ _ _ _ Hx) as [_ Hq].
    unfold lift, neg. now rewrite Hq.
Qed.

(** X6: an arithmetic node whose operands resolve to [x] and [y] is the
    [CombinedExpression] of [x] and [y] with the node's connector,
    never a folded number, unless both operands are nodes that return a
    [Q], on which it raises TypeError. *)
Theorem arithmetic_combines (left_ right_ : exp.t) (self self1 self2 : Parser)
    (x y : obj) :
  resolve left_ self = (Ok x, self1) ->
  resolve right_ self1 = (Ok y, self2) ->
  let outcome c :=
    (if returns_Q left_ && returns_Q right_ then Err TypeError
     else Ok (CombinedExpression x c y), self2) in
  resolve (exp.Add left_ right_) self = outcome ADD
  /\ resolve (exp.Sub left_ right_) self = outcome SUB
  /\ resolve (exp.Mul left_ right_) self = outcome MUL
  /\ resolve (exp.Div left_ right_) self = outcome DIV.
Proof.
  intros Hx Hy outcome. subst outcome. cbn beta.
  destruct (resolve_kind _ _ _ _ Hx) as [_ Hqx].
  destruct (resolve_kind _ _ _ _ Hy) as [_ Hqy].
  repeat split; cbn [_resolve];
    rewrite (bind_Ok _ _ _ _ _ Hx), (bind_Ok _ _ _ _ _ Hy);
    unfold lift, combine; now rewrite Hqx, Hqy.
Qed.

(** ** Trees without cone call *)

Lemma inert_ret {A} (a : A) : inert (@ret Model A a).
Proof. intros self. split; [reflexivity | intros; reflexivity]. Qed.

Lemma inert_raise {A} e : inert (@raise Model A e).
Proof. intros self. split; [reflexivity | intros; reflexivity]. Qed.

Lemma inert_lift {A} (r : result A) : inert (@lift Model A r).
Proof. intros self. split; [reflexivity | intros; reflexivity]. Qed.

Lemma inert_of_option {A} e (o : option A) : inert (@of_option Model A e o).
Proof. destruct o; [apply inert_ret | apply inert_raise]. Qed.

Lemma inert_bind {A B} (m : M A) (k : A -> M B) :
  inert m -> (forall a, inert (k a)) -> inert (bind m k).
Proof.
  intros Hm Hk self. destruct (Hm self) as [Hs Hf]. split.
  - unfold bind. destruct (m self) as [[a | e] s1] eqn:E; simpl in Hs; subst.
    + apply Hk.
    + reflexivity.
  - intros other Ho. specialize (Hf other Ho).
    destruct (Hm other) as [Hso _]. unfold bind.
    destruct (m self) as [[a | e] s1]; destruct (m other) as [[a' | e'] s1'];
      simpl in *; simplify_eq; [| reflexivity].
    now apply Hk.
Qed.

Lemma inert_for_each {A B} (f : A -> M B) (l : list A) :
  Forall (fun x => inert (f x)) l -> inert (for_each f l).
Proof.
  induction 1 as [| x l Hx _ IH]; cbn [for_each].
  - apply inert_ret.
  - apply inert_bind; [exact Hx | intros a].
    apply inert_bind; [exact IH | intros xs]. apply inert_ret.
Qed.

Lemma inert_resolve_column c : inert (resolve_column c).
Proof.
  intros self. split.
  - pose proof (keeps_resolve_column c self) as _.
    destruct (resolve_column c self) as [[x | e] s1] eqn:E; simpl.
    + now apply resolve_column_Ok in E as [-> _].
    + now apply resolve_column_Err in E as [-> _].
  - intros other Ho. unfold _resolve_column. rewrite Ho.
    destruct (descend get_field (Some (model self)) (exp.parts c))
      as [[[m |] [| part0 ps]] | e]; try reflexivity.
    now destruct (get_field m (exp.id_this part0)).
Qed.

Lemma inert_resolve p : cone_calls p = [] -> inert (resolve p).
Proof.
  induction p using exp_tree_ind; intros Hc; cbn [cone_calls] in Hc;
    repeat match goal with
           | H : _ ++ _ = [] |- _ => apply app_eq_nil in H; destruct H
           end;
    cbn [_resolve];
    repeat match goal with
           | |- inert (if ?b then _ else _) => destruct b
           end;
    try discriminate;
    repeat first
      [ apply inert_ret | apply inert_raise | apply inert_lift
      | apply inert_of_option | apply inert_resolve_column
      | match goal with
        | IH : _ -> inert (resolve ?p) |- inert (resolve ?p) =>
            apply IH; assumption
        end
      | apply inert_bind; [| intros ?] ].
  apply inert_for_each.
  match goal with
  | Hf : flat_map cone_calls es = [] |- _ =>
      induction H as [| e es He _ IHes]; [constructor |];
      cbn [flat_map] in Hf; apply app_eq_nil in Hf as [? ?];
      constructor; auto
  end.
Qed.

(** X7: a tree without cone call never touches the parser instance,
    whether its resolution returns or raises, and its outcome depends on
    the instance through the model only: two instances with the same
    model, whatever their accumulators hold, give the same outcome. *)
Theorem cone_free_resolution (p : exp.t) (self other : Parser) :
  cone_calls p = [] ->
  snd (resolve p self) = self
  /\ (model other = model self -> fst (resolve p other) = fst (resolve p self)).
Proof.
  intros Hc. destruct (inert_resolve p Hc self) as [Hs Hf].
  split; [exact Hs | apply Hf].
Qed.

(** X8: when the subject of a [Between] node contains no cone call and
    resolves to [s], the two bounds are built on the same object:
    with a lower bound resolving to [lo] and an upper bound to [hi], the
    node resolves to the conjunction of [s >= lo] and [s <= hi]. *)
Theorem between_cone_free_subject (this low high : exp.t)
    (self self1 self2 : Parser) (s lo hi : obj) :
  cone_calls this = [] ->
  resolve this self = (Ok s, self) ->
  resolve low self = (Ok lo, self1) ->
  resolve high self1 = (Ok hi, self2) ->
  resolve (exp.Between this low high) self
  = (Ok (Q AND false [Lookup GreaterThanOrEqual s lo;
                      Lookup LessThanOrEqual s hi]), self2).
Proof.
  intros Hc Hs Hlo Hhi. cbn [_resolve].
  rewrite (bind_Ok _ _ _ _ _ Hs), (bind_Ok _ _ _ _ _ Hlo).
  destruct (inert_resolve this Hc self) as [_ Hf].
  destruct (inert_resolve this Hc self1) as [Hs1 _].
  assert (Hthis : resolve this self1 = (Ok s, self1)).
  { specialize (Hf self1 (resolve_model _ _ _ _ Hlo)).
    rewrite Hs in Hf. simpl in Hf.
    destruct (resolve this self1) as [r t]. simpl in *. now subst. }
  rewrite (bind_Ok _ _ _ _ _ Hthis), (bind_Ok _ _ _ _ _ Hhi). reflexivity.
Qed.

(** ** Cone calls *)

(** X9: when no [Between] subject contains a cone call, a resolution
    that returns has appended to the cones list exactly one record per
    cone call of the tree, in left-to-right depth-first order, each
    record holding the values of the three arguments of its call; the
    records that were in the list stay in front, unchanged. *)
Theorem cones_in_call_order (p : exp.t) (self self' : Parser) (x : obj) :
  cone_in_between_subject p = false ->
  resolve p self = (Ok x, self') ->
  exists added,
    cones (extra_params self') = cones (extra_params self) ++ added
    /\ Forall2 records added (cone_calls p).
Proof. intros Hb Hrun. exact (appends_resolve p Hb self x self' Hrun). Qed.

Lemma to_little_uint_nonnil n : forall acc,
  acc <> Decimal.Nil -> Nat.to_little_uint n acc <> Decimal.Nil.
Proof.
  induction n as [| n IH]; intros acc Hacc; cbn [Nat.to_little_uint].
  - exact Hacc.
  - apply IH. destruct acc; discriminate.
Qed.

Lemma revapp_nonnil d : forall acc,
  acc <> Decimal.Nil -> Decimal.revapp d acc <> Decimal.Nil.
Proof.
  induction d; intros acc Hacc; cbn [Decimal.revapp]; auto;
    apply IHd; discriminate.
Qed.

Lemma to_uint_nonnil n : Nat.to_uint n <> Decimal.Nil.
Proof.
  unfold Nat.to_uint, Decimal.rev.
  pose proof (to_little_uint_nonnil n Decimal.zero) as H.
  destruct (Nat.to_little_uint n Decimal.zero);
    [now contradiction H | ..]; cbn [Decimal.revapp];
    apply revapp_nonnil; discriminate.
Qed.

Lemma str_nonempty n : str n <> "".
Proof. unfold str. destruct (Nat.to_uint n); discriminate. Qed.

Lemma str_inj n m : str n = str m -> n = m.
Proof.
  unfold str. intros H.
  apply (f_equal NilZero.uint_of_string) in H.
  rewrite !NilZero.usu in H by apply to_uint_nonnil.
  apply DecimalNat.Unsigned.to_uint_inj. congruence.
Qed.

Lemma cone_query_inj n m : cone_query n = cone_query m -> n = m.
Proof.
  unfold cone_query. intros H. apply String.app_inj in H.
  destruct (Nat.eqb_spec n 0) as [Hn | Hn];
    destruct (Nat.eqb_spec m 0) as [Hm | Hm]; subst; try reflexivity.
  - symmetry in H. now apply str_nonempty in H.
  - now apply str_nonempty in H.
  - now apply str_inj.
Qed.

(** X10: the synthetic field name of a cone call identifies the length
    the cones list had when the call was made: two cone calls that
    return, made at different lengths of the list (as any two calls of
    one resolution are), return [Q] objects on different field names. *)
Theorem cone_names_distinct (es1 es2 : list exp.t)
    (self1 self1' self2 self2' : Parser) (q1 q2 : obj) :
  resolve_cone es1 self1 = (Ok q1, self1') ->
  resolve_cone es2 self2 = (Ok q2, self2') ->
  q1 = Q_kwargs (cone_query (length (cones (extra_params self1)))) (PyBool true)
  /\ q2 = Q_kwargs (cone_query (length (cones (extra_params self2)))) (PyBool true)
  /\ (length (cones (extra_params self1)) <> length (cones (extra_params self2))
      -> q1 <> q2).
Proof.
  assert (Hname : forall es (s s' : Parser) q,
             resolve_cone es s = (Ok q, s') ->
             q = Q_kwargs (cone_query (length (cones (extra_params s))))
                   (PyBool true)).
  { intros es s s' q Hrun. unfold _resolve_cone in Hrun.
    destruct es as [| e0 [| e1 [| e2 [| e3 es]]]]; try discriminate Hrun.
    crunch Hrun.
    repeat match goal with
           | E : resolve _ _ = (Ok (Value _), _) |- _ =>
               apply resolve_Value_same in E; subst
           end.
    reflexivity. }
  intros H1 H2. apply Hname in H1, H2. subst q1 q2.
  repeat split. intros Hne Heq. apply Hne.
  apply cone_query_inj. congruence.
Qed.

(** ** Lists of an [In] node *)

Lemma for_each_Forall2 (es : list exp.t) : forall self rs self',
  for_each resolve es self = (Ok rs, self') ->
  Forall2 (fun e r => exists s s', resolve e s = (Ok r, s')) es rs.
Proof.
  induction es as [| e es IH]; intros self rs self' Hrun;
    cbn [for_each] in Hrun.
  - unfold ret in Hrun. simplify_eq. constructor.
  - crunch Hrun. constructor; eauto.
Qed.

(** X11: an [In] node that resolves returns the [In] lookup of its
    resolved subject and of a list with one resolved member per
    expression, in the order of the expressions; in particular the list
    has the length of the expression list, the empty list included. *)
Theorem in_list (this : exp.t) (expressions : list exp.t)
    (self self' : Parser) (x : obj) :
  resolve (exp.In this expressions) self = (Ok x, self') ->
  exists l rs,
    x = In l rs
    /\ (exists s s', resolve this s = (Ok l, s'))
    /\ Forall2 (fun e r => exists s s', resolve e s = (Ok r, s'))
         expressions rs
    /\ length rs = length expressions.
Proof.
  intros Hrun. cbn [_resolve] in Hrun. unfold bind at 1 in Hrun.
  destruct (resolve this self) as [[l |] s1] eqn:El; [| discriminate Hrun].
  unfold bind at 1 in Hrun.
  destruct (for_each resolve expressions s1) as [[rs |] s2] eqn:Ers;
    [| discriminate Hrun].
  unfold ret in Hrun. simplify_eq.
  pose proof (for_each_Forall2 _ _ _ _ Ers) as HF.
  exists l, rs. repeat split; eauto.
  symmetry. eapply Forall2_length. exact HF.
Qed.

(** ** Where the errors of the package come from *)

Lemma for_each_raise_site (f : exp.t -> bool) e (es : list exp.t) :
  Forall (fun p => forall self self',
            resolve p self = (Err e, self') -> any_node f p = true) es ->
  forall self self',
    for_each resolve es self = (Err e, self') ->
    existsb (any_node f) es = true.
Proof.
  induction 1 as [| p es Hp _ IH]; intros self self' Hrun;
    cbn [for_each] in Hrun.
  - discriminate.
  - crunch Hrun; cbn [existsb].
    + erewrite IH by eassumption. apply orb_true_r.
    + erewrite Hp by eassumption. reflexivity.
Qed.

(** An error other than the ones unary minus, arithmetic and cone calls
    raise themselves is raised at a literal, at a column or at an
    unsupported node reached by the resolution. *)
Lemma raise_site (e : exn) (f : exp.t -> bool) :
  e <> TypeError -> e <> AttributeError -> e <> InvalidConeNumberArguments ->
  (forall l self self',
     resolve (exp.Literal l) self = (Err e, self') ->
     f (exp.Literal l) = true) ->
  (forall c self self',
     resolve (exp.Column c) self = (Err e, self') ->
     f (exp.Column c) = true) ->
  (e = InvalidQuery -> forall p, unsupported_node p = true -> f p = true) ->
  forall p self self',
    resolve p self = (Err e, self') -> any_node f p = true.
Proof.
  intros HT HA HC Hlit Hcol Hun.
  induction p using exp_tree_ind; intros self self' Hrun.
  all: try solve
         [ cbn [_resolve] in Hrun; cbn [any_node];
           crunch Hrun; try congruence;
           repeat match goal with
                  | IH : forall s s' : Parser, resolve ?p s = _ -> _,
                    E : resolve ?p _ = (Err _, _) |- _ =>
                      rewrite (IH _ _ E); clear E
                  end;
           repeat match goal with
                  | E : exp.is_Null _ = _ |- _ => rewrite E; clear E
                  end;
           cbn [negb andb orb]; rewrite ?orb_true_r; reflexivity ].
  - cbn [any_node]. erewrite Hlit by eassumption. reflexivity.
  - cbn [any_node]. erewrite Hcol by eassumption. reflexivity.
  - cbn [_resolve] in Hrun. cbn [any_node]. crunch Hrun.
    + erewrite (for_each_raise_site f) by eassumption.
      rewrite !orb_true_r. reflexivity.
    + erewrite IHp by eassumption. rewrite !orb_true_r. reflexivity.
  - cbn [_resolve] in Hrun. cbn [any_node].
    destruct (is_cone name) eqn:Ec.
    + destruct es as [| e0 [| e1 [| e2 [| e3 es]]]];
        try (crunch Hrun; congruence).
      inversion H as [| ? ? H0 Hes1]; subst.
      inversion Hes1 as [| ? ? H1 Hes2]; subst.
      inversion Hes2 as [| ? ? H2 _]; subst.
      crunch Hrun; try congruence; cbn [existsb];
        repeat match goal with
               | IH : forall s s' : Parser, resolve ?p s = _ -> _,
                 E : resolve ?p _ = (Err _, _) |- _ =>
                   rewrite (IH _ _ E); clear E
               end;
        rewrite ?orb_true_r; reflexivity.
    + crunch Hrun. rewrite (Hun eq_refl); [reflexivity |].
      cbn [unsupported_node]. now rewrite Ec.
  - cbn [_resolve] in Hrun. crunch Hrun. cbn [any_node].
    now rewrite (Hun eq_refl).
  - cbn [_resolve] in Hrun. crunch Hrun. cbn [any_node].
    now rewrite (Hun eq_refl).
Qed.

(** X12: InvalidQuery is raised at an unsupported node only: a tree
    whose resolution raises it contains, where the resolution reaches
    it, a [Null], a function other than cone, or a node of a class the
    resolver has no branch for. *)
Theorem invalid_query_site (p : exp.t) (self self' : Parser) :
  resolve p self = (Err InvalidQuery, self') ->
  any_node unsupported_node p = true.
Proof.
  apply raise_site; try discriminate; try (intros; assumption).
  - intros l s s' Hrun. cbn [_resolve] in Hrun. crunch Hrun.
  - intros c s s' Hrun. cbn [_resolve] in Hrun.
    destruct (exp.quoted (exp.col_this c)); [discriminate Hrun |].
    apply resolve_column_raises in Hrun. now destruct Hrun as (_ & ? & _).
Qed.

(** X13: InvalidLiteral is raised at a literal that is neither string,
    integer nor number, and nowhere else. *)
Theorem invalid_literal_site (p : exp.t) (self self' : Parser) :
  resolve p self = (Err InvalidLiteral, self') ->
  any_node kindless_literal p = true.
Proof.
  apply raise_site; try discriminate.
  - intros l s s' Hrun. cbn [_resolve] in Hrun. cbn [kindless_literal].
    crunch Hrun. reflexivity.
  - intros c s s' Hrun. cbn [_resolve] in Hrun.
    destruct (exp.quoted (exp.col_this c)); [discriminate Hrun |].
    apply resolve_column_raises in Hrun. now destruct Hrun as (_ & _ & ?).
Qed.

(** X14: the field a FieldDoesNotExist carries is the name of an
    unquoted column of the tree: the resolution of a tree raises
    [FieldDoesNotExist(field)] only when it reaches an unquoted column
    whose last identifier is [field]. *)
Theorem field_does_not_exist_site
    (p : exp.t) (self self' : Parser) (field : string) :
  resolve p self = (Err (FieldDoesNotExist field), self') ->
  any_node (column_named field) p = true.
Proof.
  apply raise_site; try discriminate.
  - intros l s s' Hrun. cbn [_resolve] in Hrun. crunch Hrun.
  - intros c s s' Hrun. cbn [_resolve] in Hrun. cbn [column_named].
    destruct (exp.quoted (exp.col_this c)); [discriminate Hrun |].
    apply resolve_column_Err in Hrun as [_ [Hf | [[? | ?] _]]];
      try discriminate.
    simplify_eq. cbn [negb andb]. apply String.eqb_refl.
Qed.

(** ** Exception messages *)

Lemma string_length_app (s t : string) :
  String.length (s +:+ t) = String.length s + String.length t.
Proof. induction s as [| a s IH]; simpl; [reflexivity | now rewrite IH]. Qed.

Lemma string_app_inj_r (t : string) : forall s1 s2,
  s1 +:+ t = s2 +:+ t -> s1 = s2.
Proof.
  induction s1 as [| a s1 IH]; intros [| b s2] H; simpl in H.
  - reflexivity.
  - apply (f_equal String.length) in H.
    rewrite !string_length_app in H. simpl in H. lia.
  - apply (f_equal String.length) in H.
    rewrite !string_length_app in H. simpl in H. lia.
  - cbn [String.app] in H. injection H as -> H. f_equal. now apply IH.
Qed.

(** X15: the message identifies the exception: two exceptions of the
    package with the same message are the same exception, and for
    FieldDoesNotExist they carry the same field. *)
Theorem message_identifies (e1 e2 : exn) :
  typed e1 = true -> message e1 = message e2 -> e1 = e2.
Proof.
  intros Ht H.
  destruct e1; try discriminate Ht; destruct e2; try discriminate H;
    try reflexivity.
  cbn [message] in H. injection H as H.
  apply String.app_inj in H. apply string_app_inj_r in H. now subst.
Qed.

(** ** [Parser.parse] *)

Variable parse_one : string -> string -> option exp.t.

Local Abbreviation run_parse :=
  (parse get_field py_int py_float parse_one).

(** X16: whatever its outcome, a call of [parse] stores the text in
    [query], leaves [database], [date_format], the model and the aliases
    as they are and only appends to the cones list; when sqlglot raises
    on the text nothing but [query] has changed. *)
Theorem parse_frame (text : string) (self : ParserObject) :
  query (snd (run_parse text self)) = Some text
  /\ database (snd (run_parse text self)) = database self
  /\ date_format (snd (run_parse text self)) = date_format self
  /\ frame (core self) (core (snd (run_parse text self)))
  /\ (parse_one text (database self) = None ->
      run_parse text self
      = (sqlglot_raises,
         mkObject (Some text) (date_format self) (database self) (core self))).
Proof.
  unfold parse. cbn [database query date_format core].
  destruct (parse_one text (database self)) as [parsed |].
  - pose proof (keeps_resolve parsed (core self)) as Hk.
    destruct (resolve parsed (core self)) as [r c]. simpl in *.
    repeat split; try apply Hk. discriminate.
  - simpl. repeat split; try apply frame_refl.
Qed.

(** X17: a parser object is not reset between calls of [parse]: when
    two texts are parsed one after the other on the same object, both
    resolutions return and no [Between] subject contains a cone call,
    the cones list holds the records it had, then one record per cone
    call of the first tree, then one per cone call of the second tree,
    each in call order. *)
Theorem parse_accumulates (text1 text2 : string) (p1 p2 : exp.t)
    (self self1 self2 : ParserObject) (x1 x2 : obj) :
  parse_one text1 (database self) = Some p1 ->
  parse_one text2 (database self) = Some p2 ->
  cone_in_between_subject p1 = false ->
  cone_in_between_subject p2 = false ->
  run_parse text1 self = (resolved (Ok x1), self1) ->
  run_parse text2 self1 = (resolved (Ok x2), self2) ->
  exists added1 added2,
    cones (extra_params (core self2))
    = cones (extra_params (core self)) ++ added1 ++ added2
    /\ Forall2 records added1 (cone_calls p1)
    /\ Forall2 records added2 (cone_calls p2).
Proof.
  intros Hp1 Hp2 Hb1 Hb2 H1 H2.
  unfold parse in H1. cbn [database query date_format core] in H1.
  rewrite Hp1 in H1.
  destruct (resolve p1 (core self)) as [r1 c1] eqn:E1. simplify_eq.
  unfold parse in H2. cbn [database query date_format core] in H2.
  rewrite Hp2 in H2.
  destruct (resolve p2 c1) as [r2 c2] eqn:E2. simplify_eq.
  destruct (appends_resolve p1 Hb1 _ _ _ E1) as (a1 & Hc1 & HF1).
  destruct (appends_resolve p2 Hb2 _ _ _ E2) as (a2 & Hc2 & HF2).
  exists a1, a2. cbn [core]. rewrite Hc2, Hc1, app_assoc. auto.
Qed.

(** ** NULL outside of a comparison: the error raised *)


End Properties.

(** * The resolver on the example schema *)

Section Runs.

Import example.

Local Abbreviation resolve_cone :=
  (_resolve_cone get_field py_int py_float).

(** ** Field paths *)

(** C1: on a dotted path the [try] of [_resolve_column] covers the last
    identifier only.  [nofield.title], whose first identifier is no
    field of the model, raises the FieldDoesNotExist of django and not
    the one of the package; [name.title], whose first identifier is a
    plain field, raises AttributeError.  The last identifier is
    reported as the package's error, and a valid path is joined. *)
Theorem nonfinal_segment_escapes :
  resolve (exp.Column (col2 "nofield" "title")) fresh
    = (Err django_FieldDoesNotExist, fresh)
  /\ resolve (exp.Column (col2 "name" "title")) fresh
     = (Err AttributeError, fresh)
  /\ resolve (exp.Column (col2 "related" "nofield")) fresh
     = (Err (FieldDoesNotExist "nofield"), fresh)
  /\ resolve (exp.Column (col2 "related" "title")) fresh
     = (Ok (F "related__title"), fresh).
Proof. repeat split. Qed.

(** ** Cone records *)

(** C4: the subject of a [Between] node is resolved twice.  The tree of
    [cone(1, 2, 3) BETWEEN 0 AND 1] has one cone call; its resolution
    on a fresh parser leaves two records in the cones list, and names
    the one call cone_query in the lower bound and cone_query1 in the
    upper bound. *)
Theorem between_subject_resolved_twice :
  cone_calls cone_between = [[int_lit "1"; int_lit "2"; int_lit "3"]]
  /\ resolve cone_between fresh =
     (Ok (Q AND false
            [Lookup GreaterThanOrEqual
               (Q_kwargs "cone_query" (PyBool true)) (Value (PyInt 0));
             Lookup LessThanOrEqual
               (Q_kwargs "cone_query1" (PyBool true)) (Value (PyInt 1))]),
      mkParser MainModel (mkExtra [record_123; record_123] ∅)).
Proof. split; reflexivity. Qed.

(** C3: the name of a cone call is read off the length of the cones
    list, and the list does not count the cone calls made so far once a
    [Between] subject holds one.  The tree of
    [cone(1, 2, 3) BETWEEN 0 AND 1 AND cone(4, 5, 6)] has two cone
    calls; on a fresh parser the first is named cone_query and
    cone_query1, and the second, with three valid arguments, is named
    cone_query2 and not cone_query1. *)
Theorem second_cone_call_named_by_length :
  cone_calls cone_between_and_cone
  = [[int_lit "1"; int_lit "2"; int_lit "3"];
     [int_lit "4"; int_lit "5"; int_lit "6"]]
  /\ resolve cone_between_and_cone fresh =
     (Ok (Q AND false
            [Q AND false
               [Lookup GreaterThanOrEqual
                  (Q_kwargs "cone_query" (PyBool true)) (Value (PyInt 0));
                Lookup LessThanOrEqual
                  (Q_kwargs "cone_query1" (PyBool true)) (Value (PyInt 1))];
             Q_kwargs "cone_query2" (PyBool true)]),
      mkParser MainModel
        (mkExtra [record_123; record_123;
                  mkCone (PyInt 4) (PyInt 5) (PyInt 6)] ∅)).
Proof. split; reflexivity. Qed.

(** ** Applications of the theorems *)

Lemma cone_synthetic_name_second :
  resolve (cone [int_lit "4"; int_lit "5"; int_lit "6"]) after_one_cone =
    (Ok (Q_kwargs "cone_query1" (PyBool true)),
     mkParser MainModel
       (mkExtra [record_123; mkCone (PyInt 4) (PyInt 5) (PyInt 6)] ∅)).
Proof.
  exact (proj2 (cone_synthetic_name get_field py_int py_float "cone"
                  (int_lit "4") (int_lit "5") (int_lit "6")
                  after_one_cone after_one_cone after_one_cone after_one_cone
                  (PyInt 4) (PyInt 5) (PyInt 6)
                  eq_refl eq_refl eq_refl eq_refl)).
Defined.

Lemma literal_resolution_examples :
  resolve (str_lit "abc") fresh = (Ok (Value (PyStr "abc")), fresh)
  /\ resolve (int_lit "18") fresh = (Ok (Value (PyInt 18)), fresh)
  /\ resolve (dec_lit "10.5") fresh = (Ok (Value (PyFloat 10.5)), fresh)
  /\ resolve (exp.Literal (exp.mkLiteral "x" false false false)) fresh
     = (Err InvalidLiteral, fresh).
Proof.
  split; [| split; [| split]].
  - exact (proj1 (literal_resolution get_field py_int py_float
                    (exp.mkLiteral "abc" true false false) fresh) eq_refl).
  - exact (proj1 (proj2 (literal_resolution get_field py_int py_float
                    (exp.mkLiteral "18" false true true) fresh))
             18%Z eq_refl eq_refl eq_refl).
  - exact (proj1 (proj2 (proj2 (literal_resolution get_field py_int py_float
                    (exp.mkLiteral "10.5" false false true) fresh)))
             10.5%float eq_refl eq_refl eq_refl eq_refl).
  - exact (proj2 (proj2 (proj2 (literal_resolution get_field py_int py_float
                    (exp.mkLiteral "x" false false false) fresh)))
             eq_refl eq_refl eq_refl).
Defined.

Lemma quoted_identifier_example :
  get_field MainModel "name" = Some (mkField None)
  /\ resolve (quoted_col "name") fresh = (Ok (Value (PyStr "name")), fresh)
  /\ resolve (col "name") fresh = (Ok (F "name"), fresh).
Proof.
  split; [reflexivity | split].
  - exact (proj1 (proj1 (quoted_identifier_is_string get_field py_int py_float
             (exp.mkColumn (exp.mkIdentifier "name" true) None None None)
             fresh) eq_refl)).
  - exact (proj2 (quoted_identifier_is_string get_field py_int py_float
             (exp.mkColumn (ident "name") None None None) fresh) eq_refl).
Defined.

Lemma null_comparisons_example :
  resolve (exp.EQ (col "name") exp.Null) fresh
    = (Ok (IsNull (F "name") true), fresh)
  /\ resolve (exp.NEQ (col "name") exp.Null) fresh
     = (Ok (IsNull (F "name") false), fresh)
  /\ resolve (exp.NEQ (col "age") (int_lit "18")) fresh
     = (Ok (NegatedExpression (Lookup Exact (F "age") (Value (PyInt 18)))),
        fresh).
Proof.
  split; [| split].
  - exact (proj1 (null_comparisons get_field py_int py_float
             (col "name") fresh fresh (F "name") eq_refl)).
  - exact (proj1 (proj2 (proj2 (null_comparisons get_field py_int py_float
             (col "name") fresh fresh (F "name") eq_refl)))).
  - exact (proj2 (proj2 (proj2 (proj2 (proj2
             (null_comparisons get_field py_int py_float
                (col "age") fresh fresh (F "age") eq_refl)))
             (int_lit "18") (Value (PyInt 18)) fresh eq_refl eq_refl))).
Defined.

Lemma cone_argument_count_example :
  resolve_cone [int_lit "1"; int_lit "2"] fresh
    = (Err InvalidConeNumberArguments, fresh).
Proof.
  apply (proj1 (cone_argument_count get_field py_int py_float
                  [int_lit "1"; int_lit "2"] fresh)).
  simpl. lia.
Defined.


Lemma resolve_typed_errors_example :
  ok_or_typed (fst (resolve cone_and_flag fresh)).
Proof.
  apply (resolve_typed_errors get_field py_int py_float MainModel
           cone_and_flag fresh); reflexivity.
Defined.

(** ** Inputs on which the stated properties fail *)

(** A cone call with a field reference as argument raises
    AttributeError, which is none of the package's errors; one with a
    string as argument returns and records the string. *)
Lemma cone_field_argument_untyped :
  resolve (cone [col "age"; int_lit "2"; int_lit "3"]) fresh
    = (Err AttributeError, fresh)
  /\ ~ ok_or_typed
        (fst (resolve (cone [col "age"; int_lit "2"; int_lit "3"]) fresh))
  /\ resolve (cone [str_lit "a"; int_lit "2"; int_lit "3"]) fresh
     = (Ok (Q_kwargs "cone_query" (PyBool true)),
        mkParser MainModel
          (mkExtra [mkCone (PyStr "a") (PyInt 2) (PyInt 3)] ∅)).
Proof.
  split; [reflexivity | split; [| reflexivity]].
  simpl. discriminate.
Qed.

(** A function called by a double-quoted name and a column named by a
    star raise AttributeError before anything else is looked at. *)
Lemma quoted_function_and_star_untyped :
  resolve quoted_cone fresh = (Err AttributeError, fresh)
  /\ resolve related_star fresh = (Err AttributeError, fresh).
Proof. split; reflexivity. Qed.

(** A cone call with exactly three arguments that raises
    InvalidConeNumberArguments: its first argument is a cone call with
    two arguments. *)
Lemma three_arguments_raise_cone_arity :
  length [cone [int_lit "1"; int_lit "2"]; int_lit "3"; int_lit "4"] = 3
  /\ resolve_cone [cone [int_lit "1"; int_lit "2"]; int_lit "3"; int_lit "4"]
       fresh
     = (Err InvalidConeNumberArguments, fresh).
Proof. split; reflexivity. Qed.


(** ** Applications of the further properties *)

Lemma unqualified_column_examples :
  resolve (col "age") fresh = (Ok (F "age"), fresh)
  /\ resolve (col "missingfield") fresh
     = (Err (FieldDoesNotExist "missingfield"), fresh).
Proof.
  split.
  - exact (unqualified_column get_field py_int py_float
             (exp.mkColumn (ident "age") None None None) fresh
             eq_refl eq_refl).
  - exact (unqualified_column get_field py_int py_float
             (exp.mkColumn (ident "missingfield") None None None) fresh
             eq_refl eq_refl).
Defined.

Lemma dotted_column_example :
  exists m',
    descend get_field (Some MainModel) (exp.parts (col2 "related" "title"))
    = Ok (Some m', [ident "title"])
    /\ resolve (exp.Column (col2 "related" "title")) fresh
       = (match get_field m' "title" with
          | Some _ => Ok (F "related__title")
          | None => Err (FieldDoesNotExist "title")
          end, fresh).
Proof.
  exact (dotted_column get_field py_int py_float (col2 "related" "title")
           fresh eq_refl eq_refl).
Defined.

Lemma column_errors_example :
  fresh = fresh
  /\ (django_FieldDoesNotExist = FieldDoesNotExist "title"
      \/ ((django_FieldDoesNotExist = django_FieldDoesNotExist
           \/ django_FieldDoesNotExist = AttributeError)
          /\ 2 <= length (exp.parts (col2 "nofield" "title")))).
Proof.
  exact (column_errors get_field (col2 "nofield" "title") fresh fresh
           django_FieldDoesNotExist eq_refl).
Defined.

Lemma result_kind_example :
  is_Value (Q AND false [F "age"; F "flag"]) = false
  /\ is_Q (Q AND false [F "age"; F "flag"]) = true.
Proof.
  exact (result_kind get_field py_int py_float
           (exp.And (col "age") (col "flag")) fresh fresh
           (Q AND false [F "age"; F "flag"]) eq_refl).
Defined.

Lemma unary_minus_examples :
  resolve (exp.Neg (int_lit "18")) fresh = (Ok (Value (PyInt (-18))), fresh)
  /\ resolve (exp.Neg (dec_lit "10.5")) fresh
     = (Ok (Value (PyFloat (-10.5))), fresh)
  /\ resolve (exp.Neg (col "age")) fresh
     = (Ok (CombinedExpression (F "age") MUL (Value (PyInt (-1)))), fresh)
  /\ resolve (exp.Neg (str_lit "abc")) fresh
     = (Ok (CombinedExpression (Value (PyStr "abc")) MUL (Value (PyInt (-1)))),
        fresh)
  /\ resolve (exp.Neg (exp.Neg (int_lit "18"))) fresh
     = (Ok (CombinedExpression (Value (PyInt (-18))) MUL (Value (PyInt (-1)))),
        fresh)
  /\ resolve (exp.Neg (exp.Not (col "flag"))) fresh = (Err TypeError, fresh).
Proof.
  pose proof (unary_minus get_field py_int py_float fresh)
    as (Hint & Hfloat & Hother).
  split; [| split; [| split; [| split; [| split]]]].
  - exact (Hint (exp.mkLiteral "18" false true true) 18%Z
             eq_refl eq_refl eq_refl).
  - exact (Hfloat (exp.mkLiteral "10.5" false false true) 10.5%float
             eq_refl eq_refl eq_refl eq_refl).
  - exact (Hother (col "age") (F "age") fresh eq_refl eq_refl).
  - exact (Hother (str_lit "abc") (Value (PyStr "abc")) fresh
             eq_refl eq_refl).
  - exact (Hother (exp.Neg (int_lit "18")) (Value (PyInt (-18))) fresh
             eq_refl eq_refl).
  - exact (Hother (exp.Not (col "flag")) (Q AND true [F "flag"]) fresh
             eq_refl eq_refl).
Defined.

Lemma arithmetic_combines_examples :
  resolve (exp.Add (int_lit "1") (int_lit "2")) fresh
  = (Ok (CombinedExpression (Value (PyInt 1)) ADD (Value (PyInt 2))), fresh)
  /\ resolve (exp.Mul (exp.Not (col "flag")) (exp.Not (col "flag"))) fresh
     = (Err TypeError, fresh).
Proof.
  split.
  - exact (proj1 (arithmetic_combines get_field py_int py_float
                    (int_lit "1") (int_lit "2") fresh fresh fresh
                    (Value (PyInt 1)) (Value (PyInt 2)) eq_refl eq_refl)).
  - exact (proj1 (proj2 (proj2 (arithmetic_combines get_field py_int py_float
                    (exp.Not (col "flag")) (exp.Not (col "flag"))
                    fresh fresh fresh
                    (Q AND true [F "flag"]) (Q AND true [F "flag"])
                    eq_refl eq_refl)))).
Defined.

Lemma cone_free_resolution_example :
  snd (resolve (exp.GT (col "age") (int_lit "18")) after_one_cone)
  = after_one_cone
  /\ (model fresh = model after_one_cone ->
      fst (resolve (exp.GT (col "age") (int_lit "18")) fresh)
      = fst (resolve (exp.GT (col "age") (int_lit "18")) after_one_cone)).
Proof.
  exact (cone_free_resolution get_field py_int py_float
           (exp.GT (col "age") (int_lit "18")) after_one_cone fresh eq_refl).
Defined.

Lemma between_cone_free_subject_example :
  resolve (exp.Between (col "age") (int_lit "18") (int_lit "65")) fresh
  = (Ok (Q AND false
           [Lookup GreaterThanOrEqual (F "age") (Value (PyInt 18));
            Lookup LessThanOrEqual (F "age") (Value (PyInt 65))]), fresh).
Proof.
  exact (between_cone_free_subject get_field py_int py_float
           (col "age") (int_lit "18") (int_lit "65") fresh fresh fresh
           (F "age") (Value (PyInt 18)) (Value (PyInt 65))
           eq_refl eq_refl eq_refl eq_refl).
Defined.

Lemma cones_in_call_order_example :
  exists added,
    [mkCone (PyFloat 10.5) (PyFloat (-5.25)) (PyFloat 0.125)] = [] ++ added
    /\ Forall2 (records get_field py_int py_float) added
         (cone_calls cone_and_flag).
Proof.
  exact (cones_in_call_order get_field py_int py_float cone_and_flag fresh
           (mkParser MainModel
              (mkExtra [mkCone (PyFloat 10.5) (PyFloat (-5.25))
                          (PyFloat 0.125)] ∅))
           (Q AND false [Q_kwargs "cone_query" (PyBool true);
                         Lookup Exact (F "flag") (Value (PyInt 1))])
           eq_refl eq_refl).
Defined.

Lemma cone_names_distinct_example :
  Q_kwargs "cone_query" (PyBool true) <> Q_kwargs "cone_query1" (PyBool true).
Proof.
  refine (proj2 (proj2 (cone_names_distinct get_field py_int py_float
            [int_lit "1"; int_lit "2"; int_lit "3"]
            [int_lit "1"; int_lit "2"; int_lit "3"]
            fresh after_one_cone after_one_cone
            (mkParser MainModel (mkExtra [record_123; record_123] ∅))
            (Q_kwargs "cone_query" (PyBool true))
            (Q_kwargs "cone_query1" (PyBool true))
            eq_refl eq_refl)) _).
  simpl. lia.
Defined.

Lemma in_list_example :
  exists l rs,
    In (F "age") [Value (PyInt 1); Value (PyInt 2)] = In l rs
    /\ (exists s s', resolve (col "age") s = (Ok l, s'))
    /\ Forall2 (fun e r => exists s s', resolve e s = (Ok r, s'))
         [int_lit "1"; int_lit "2"] rs
    /\ length rs = length [int_lit "1"; int_lit "2"].
Proof.
  exact (in_list get_field py_int py_float (col "age")
           [int_lit "1"; int_lit "2"] fresh fresh
           (In (F "age") [Value (PyInt 1); Value (PyInt 2)]) eq_refl).
Defined.

Lemma invalid_query_site_example :
  any_node unsupported_node
    (exp.And (exp.EQ (col "age") (int_lit "1"))
             (exp.Anonymous "sqrt" [col "age"])) = true.
Proof.
  exact (invalid_query_site get_field py_int py_float
           (exp.And (exp.EQ (col "age") (int_lit "1"))
                    (exp.Anonymous "sqrt" [col "age"]))
           fresh fresh eq_refl).
Defined.

Lemma invalid_literal_site_example :
  any_node kindless_literal
    (exp.GT (col "age") (exp.Literal (exp.mkLiteral "x" false false false)))
  = true.
Proof.
  exact (invalid_literal_site get_field py_int py_float
           (exp.GT (col "age")
              (exp.Literal (exp.mkLiteral "x" false false false)))
           fresh fresh eq_refl).
Defined.

Lemma field_does_not_exist_site_example :
  any_node (column_named "missingfield")
    (exp.EQ (col "missingfield") (int_lit "1")) = true.
Proof.
  exact (field_does_not_exist_site get_field py_int py_float
           (exp.EQ (col "missingfield") (int_lit "1")) fresh fresh
           "missingfield" eq_refl).
Defined.

Lemma message_identifies_example :
  FieldDoesNotExist "age" = FieldDoesNotExist "age".
Proof.
  exact (message_identifies (FieldDoesNotExist "age") (FieldDoesNotExist "age")
           eq_refl eq_refl).
Defined.

Lemma parse_frame_example :
  session.parse "age >" session.new_parser
  = (sqlglot_raises,
     mkObject (Some "age >") default_date_format default_database fresh).
Proof.
  exact (proj2 (proj2 (proj2 (proj2
           (parse_frame get_field py_int py_float session.parse_one
              "age >" session.new_parser)))) eq_refl).
Defined.

Lemma parse_accumulates_example :
  exists added1 added2,
    [record_123; mkCone (PyFloat 10.5) (PyFloat (-5.25)) (PyFloat 0.125)]
    = [] ++ added1 ++ added2
    /\ Forall2 (records get_field py_int py_float) added1 (cone_calls cone_123)
    /\ Forall2 (records get_field py_int py_float) added2
         (cone_calls cone_and_flag).
Proof.
  exact (parse_accumulates get_field py_int py_float session.parse_one
           "cone(1, 2, 3)" "cone(10.5, -5.25, 0.125) AND flag = 1"
           cone_123 cone_and_flag
           session.new_parser
           (mkObject (Some "cone(1, 2, 3)") default_date_format
              default_database after_one_cone)
           (mkObject (Some "cone(10.5, -5.25, 0.125) AND flag = 1")
              default_date_format default_database
              (mkParser MainModel
                 (mkExtra [record_123;
                           mkCone (PyFloat 10.5) (PyFloat (-5.25))
                             (PyFloat 0.125)] ∅)))
           (Q_kwargs "cone_query" (PyBool true))
           (Q AND false [Q_kwargs "cone_query1" (PyBool true);
                         Lookup Exact (F "flag") (Value (PyInt 1))])
           eq_refl eq_refl eq_refl eq_refl eq_refl eq_refl).
Defined.

End Runs.
